(** * RAG ingestion pipeline (src/rag/ingest.py): a shallow embedding

    Python values are modelled as the interpreter has them: [int] is [Z]
    (unbounded), [str] is a list of Unicode code points, a [list] is a
    [list], a [dict] is an insertion-ordered association list with unique
    keys, and a decoded JSON document is the inductive type [json].
    Network, filesystem, randomness and stdout are modelled by explicit
    state passing over an abstract outside world. *)

From Stdlib Require Import ZArith NArith List String Ascii Bool Lia QArith.
Import ListNotations.

Local Open Scope Z_scope.

(** ** Python strings *)

Module Py.

(** A character is a Unicode code point. *)
Definition char := N.

(** A Python [str]. *)
Definition pystr := list char.

(** A string literal of the source, as code points. *)
Fixpoint str (s : string) : pystr :=
  match s with
  | EmptyString => []
  | String a r => N_of_ascii a :: str r
  end.

(** [len(s)], a Python [int]. *)
Definition len {A : Type} (l : list A) : Z := Z.of_nat (List.length l).

Fixpoint str_eqb (a b : pystr) : bool :=
  match a, b with
  | [], [] => true
  | x :: a', y :: b' => N.eqb x y && str_eqb a' b'
  | _, _ => false
  end.

(** [str.isspace] on one character, which is also what the regular
    expression class [\s] matches on a [str] pattern: the ASCII controls
    TAB..CR and FS..US, the space, and the Unicode white space characters
    NEL, NBSP, OGHAM SPACE MARK, EN QUAD..HAIR SPACE, LINE and PARAGRAPH
    SEPARATOR, NNBSP, MMSP and IDEOGRAPHIC SPACE. *)
Definition isspace (c : char) : bool :=
  (((9 <=? c) && (c <=? 13)) || ((28 <=? c) && (c <=? 32))
   || (c =? 133) || (c =? 160) || (c =? 5760)
   || ((8192 <=? c) && (c <=? 8202))
   || (c =? 8232) || (c =? 8233) || (c =? 8239) || (c =? 8287)
   || (c =? 12288))%N.

Definition space : char := 32%N.

(** [re.sub(r"\s+", " ", s)]: every maximal run of white space becomes one
    space.  [in_run] tells that the previous character was white space. *)
Fixpoint sub_ws (in_run : bool) (s : pystr) : pystr :=
  match s with
  | [] => []
  | c :: r =>
      if isspace c
      then (if in_run then sub_ws true r else space :: sub_ws true r)
      else c :: sub_ws false r
  end.

Fixpoint lstrip (s : pystr) : pystr :=
  match s with
  | [] => []
  | c :: r => if isspace c then lstrip r else s
  end.

Definition rstrip (s : pystr) : pystr := rev (lstrip (rev s)).

(** [s.strip()] *)
Definition strip (s : pystr) : pystr := rstrip (lstrip s).

(** A slice bound as Python resolves it: a negative bound counts from the
    end, and the result is clamped to [0 .. n]. *)
Definition slice_bound (n k : Z) : Z :=
  let k' := if k <? 0 then k + n else k in
  Z.max 0 (Z.min k' n).

(** [l[i:j]] *)
Definition slice {A : Type} (l : list A) (i j : Z) : list A :=
  let n := len l in
  let a := slice_bound n i in
  let b := slice_bound n j in
  firstn (Z.to_nat (b - a)) (skipn (Z.to_nat a) l).

(** [l[k]] with Python's negative indices; [None] stands for IndexError. *)
Definition index {A : Type} (l : list A) (k : Z) : option A :=
  let n := len l in
  let k' := if k <? 0 then k + n else k in
  if (0 <=? k') && (k' <? n) then nth_error l (Z.to_nat k') else None.

End Py.
Import Py.

(** ** Text chunking *)

(** [text = re.sub(r"\s+", " ", text).strip()] *)
Definition normalize (text : pystr) : pystr := strip (sub_ws false text).

(** The variables of the [while] loop of [chunk_text]. *)
Record loop_state := mkLoop { loop_i : Z; loop_chunks : list pystr }.

(** The loop test [i < len(text)]. *)
Definition loop_test (text : pystr) (s : loop_state) : bool :=
  loop_i s <? len text.

(** One execution of the loop body. *)
Definition loop_body (text : pystr) (max_chars overlap : Z)
    (s : loop_state) : loop_state :=
  let j := Z.min (loop_i s + max_chars) (len text) in
  let chunks := loop_chunks s ++ [slice text (loop_i s) j] in
  let i := j - overlap in
  let i := if i <? 0 then 0 else i in
  mkLoop i chunks.

(** The [while] loop, run for at most [fuel] evaluations of its test.
    [None] means the test was still true when the fuel ran out. *)
Fixpoint chunk_loop (fuel : nat) (text : pystr) (max_chars overlap : Z)
    (s : loop_state) : option (list pystr) :=
  match fuel with
  | O => None
  | S fuel' =>
      if loop_test text s
      then chunk_loop fuel' text max_chars overlap
             (loop_body text max_chars overlap s)
      else Some (loop_chunks s)
  end.

(** [chunk_text(text, max_chars, overlap)] *)
Definition chunk_text (fuel : nat) (text : pystr) (max_chars overlap : Z)
    : option (list pystr) :=
  chunk_loop fuel (normalize text) max_chars overlap (mkLoop 0 []).

(** The loop variables after [n] executions of the body, whatever the
    test says: the run of the loop as long as it goes on. *)
Fixpoint loop_after (n : nat) (text : pystr) (max_chars overlap : Z)
    (s : loop_state) : loop_state :=
  match n with
  | O => s
  | S n' => loop_after n' text max_chars overlap
              (loop_body text max_chars overlap s)
  end.

(** The window starts (values of [i] at the loop head) of the first [n]
    iterations. *)
Fixpoint loop_starts (n : nat) (text : pystr) (max_chars overlap : Z)
    (s : loop_state) : list Z :=
  match n with
  | O => []
  | S n' => loop_i s :: loop_starts n' text max_chars overlap
                          (loop_body text max_chars overlap s)
  end.

(** The defaults of the signature. *)
Definition default_max_chars : Z := 800.
Definition default_overlap : Z := 200.

(** ** JSON values and dictionaries *)

(** A decoded JSON document, which is also what the program sends as a
    request body.  Floats are only carried through by this program, never
    computed with; a float is represented by the rational it denotes. *)
#[local] Unset Elimination Schemes.
Inductive json : Type :=
| JNull
| JBool (b : bool)
| JInt (z : Z)
| JFloat (q : Q)
| JStr (s : pystr)
| JList (l : list json)
| JDict (d : list (pystr * json)).
#[local] Set Elimination Schemes.

(** A Python [dict] with string keys: insertion ordered, keys unique. *)
Definition dict := list (pystr * json).

(** [d[k] = v]: an existing key keeps its place, a new key goes last. *)
Fixpoint dict_set (k : pystr) (v : json) (d : dict) : dict :=
  match d with
  | [] => [(k, v)]
  | (k', v') :: r =>
      if str_eqb k' k then (k', v) :: r else (k', v') :: dict_set k v r
  end.

(** [d.get(k)] *)
Fixpoint dict_get (k : pystr) (d : dict) : option json :=
  match d with
  | [] => None
  | (k', v') :: r => if str_eqb k' k then Some v' else dict_get k r
  end.

(** [d.update(items)], and with [d = {}] the dict display [{k1: v1, ...}]
    and the unpacking [{**items}]. *)
Definition dict_update (d : dict) (items : list (pystr * json)) : dict :=
  fold_left (fun acc kv => dict_set (fst kv) (snd kv) acc) items d.

Definition dict_of (items : list (pystr * json)) : dict :=
  dict_update [] items.

(** [isinstance(x, list)] *)
Definition is_list (x : json) : bool :=
  match x with JList _ => true | _ => false end.

(** [isinstance(x, (int, float))]; [bool] is a subclass of [int]. *)
Definition is_number (x : json) : bool :=
  match x with JInt _ | JFloat _ | JBool _ => true | _ => false end.

(** [p(l[0])] for a non-empty [l] *)
Definition first_is (p : json -> bool) (l : list json) : bool :=
  match l with
  | x :: _ => p x
  | [] => false
  end.

(** [x == s] for a [str] [s] *)
Definition eq_str (s : pystr) (x : json) : bool :=
  match x with JStr t => str_eqb t s | _ => false end.

(** ** Paths (posixpath) *)

Definition sep : char := 47%N.     (* os.sep, "/" *)
Definition extsep : char := 46%N.  (* os.extsep, "." *)

(** [s.rfind(c)] for a one-character [c]: the highest index of [c] in [s],
    or [-1]. *)
Fixpoint rfind_from (c : char) (s : pystr) (pos : Z) (found : Z) : Z :=
  match s with
  | [] => found
  | x :: r => rfind_from c r (pos + 1) (if N.eqb x c then pos else found)
  end.

Definition rfind (c : char) (s : pystr) : Z := rfind_from c s 0 (-1).

(** [s.split(c)] for a one-character separator *)
Fixpoint split (c : char) (s : pystr) : list pystr :=
  match s with
  | [] => [[]]
  | x :: r =>
      if N.eqb x c then [] :: split c r
      else match split c r with
           | h :: t => (x :: h) :: t
           | [] => [[x]]
           end
  end.

(** [os.path.basename(p)]: [i = p.rfind(sep) + 1; return p[i:]] *)
Definition basename (p : pystr) : pystr :=
  let i := rfind sep p + 1 in
  slice p i (len p).

(** [os.path.splitext(p)].  The library scans the file name before the
    last dot for a character other than a dot; the scan is written here
    with [existsb] over that stretch. *)
Definition splitext (p : pystr) : pystr * pystr :=
  let sepIndex := rfind sep p in
  let dotIndex := rfind extsep p in
  if (sepIndex <? dotIndex)
     && existsb (fun c => negb (N.eqb c extsep))
                (slice p (sepIndex + 1) dotIndex)
  then (slice p 0 dotIndex, slice p dotIndex (len p))
  else (p, []).

(** ** Configuration, exceptions and the outside world *)

(** The module-level settings, read once from the environment.
    [LLM_PROVIDER] is the value after [.lower()]; a credential that is not
    set is [None]. *)
Record config := mkConfig {
  LLM_PROVIDER : pystr;
  QDRANT_URL : pystr;
  COLLECTION : pystr;
  EMBED_DIMS : Z;
  HF_API_TOKEN : option pystr;
  HF_EMBED_MODEL : pystr;
  OPENAI_API_KEY : option pystr
}.

Definition USE_OPENAI (cfg : config) : bool :=
  str_eqb (LLM_PROVIDER cfg) (str "openai").

Definition USE_HF (cfg : config) : bool :=
  str_eqb (LLM_PROVIDER cfg) (str "hf").

(** Truth value of an optional string: [None] and [""] are false. *)
Definition truthy (s : option pystr) : bool :=
  match s with
  | Some (_ :: _) => true
  | _ => false
  end.

(** The messages of the program's [RuntimeError]s; the one about the
    response format carries the payload it prints. *)
Inductive runtime_msg : Type :=
| MissingOpenAIKey
| MissingHFToken
| UnexpectedHFResponse (data : json)
| UnknownProvider.

Inductive exn : Type :=
| HTTPError (status : Z)       (* requests: raise_for_status *)
| JSONDecodeError              (* requests: Response.json *)
| KeyError (k : pystr)
| TypeError
| IndexError
| RuntimeError (m : runtime_msg)
| External (what : pystr).     (* raised inside a library or the OS *)

Inductive http_method : Type := GET | PUT | POST.

Record request := mkRequest {
  rq_method : http_method;
  rq_url : pystr;
  rq_headers : list (pystr * pystr);
  rq_json : option json
}.

(** What the program reads of the [requests.Response] it is handed (the
    final one, after the library followed any redirect): the status code
    and the decoded body ([None] when the body is not JSON). *)
Record response := mkResponse {
  status_code : Z;
  json_body : option json
}.

(** One entry of [res.data] of the OpenAI client. *)
Record embedding_obj := mkEmbedding { embedding : json }.

(** The lines the program prints. *)
Inductive message : Type :=
| MsgCreated (collection : pystr)
| MsgExists (collection : pystr)
| MsgIngesting (path : pystr)
| MsgIngested (n : Z)
| MsgStarting
| MsgUsingOpenAI
| MsgUsingHF (model : pystr)
| MsgUnknownProvider
| MsgDone.

(** What the program does to the outside world, in order. *)
Inductive event : Type :=
| EvHttp (rq : request)
| EvOpenAI (model : pystr) (input : list pystr)
| EvOpen (path : pystr)
| EvGlob (pattern : pystr)
| EvUuid4
| EvPrint (m : message).

(** The outside world: a state [W] and its answer to each kind of call. *)
Record World (W : Type) := mkWorld {
  send : request -> W -> (exn + response) * W;
  embeddings_create : pystr -> list pystr -> W
                      -> (exn + list embedding_obj) * W;
  read_text : pystr -> W -> (exn + pystr) * W;
  glob_glob : pystr -> W -> list pystr * W;
  uuid4 : W -> pystr * W
}.

Arguments send {W}.
Arguments embeddings_create {W}.
Arguments read_text {W}.
Arguments glob_glob {W}.
Arguments uuid4 {W}.

(** How a piece of the program ends: with a value, with an exception, or
    not at all within the fuel given to [chunk_text]. *)
Inductive outcome (A : Type) : Type :=
| Ok (a : A)
| Raise (e : exn)
| Diverge.

Arguments Ok {A}.
Arguments Raise {A}.
Arguments Diverge {A}.

(** The state threaded through the program. *)
Record state (W : Type) := mkState {
  world : W;
  log : list event
}.

Arguments mkState {W}.
Arguments world {W}.
Arguments log {W}.

Definition M (W A : Type) : Type := state W -> outcome A * state W.

Definition ret {W A : Type} (a : A) : M W A := fun s => (Ok a, s).

Definition raise {W A : Type} (e : exn) : M W A := fun s => (Raise e, s).

Definition bind {W A B : Type} (c : M W A) (k : A -> M W B) : M W B :=
  fun s =>
    match c s with
    | (Ok a, s') => k a s'
    | (Raise e, s') => (Raise e, s')
    | (Diverge, s') => (Diverge, s')
    end.

Notation "x <- c ;; k" := (bind c (fun x => k))
  (at level 61, c at next level, right associativity).
Notation "c ;; k" := (bind c (fun _ => k))
  (at level 61, right associativity).

Fixpoint mapM {W A B : Type} (f : A -> M W B) (l : list A) : M W (list B) :=
  match l with
  | [] => ret []
  | a :: r => b <- f a ;; bs <- mapM f r ;; ret (b :: bs)
  end.

(** A [for] loop run for its effects. *)
Fixpoint forM {W A : Type} (f : A -> M W unit) (l : list A) : M W unit :=
  match l with
  | [] => ret tt
  | a :: r => f a ;; forM f r
  end.

(** A call of the outside world: logged, then answered by the world. *)
Definition call {W A : Type} (ev : event) (h : W -> (exn + A) * W) : M W A :=
  fun s =>
    let '(r, w) := h (world s) in
    let s' := mkState w (log s ++ [ev]) in
    match r with
    | inl e => (Raise e, s')
    | inr a => (Ok a, s')
    end.

Definition print {W : Type} (m : message) : M W unit :=
  fun s => (Ok tt, mkState (world s) (log s ++ [EvPrint m])).

(** [r.raise_for_status()] of requests: an [HTTPError] for a status in
    [400 .. 599], nothing otherwise. *)
Definition raise_for_status {W : Type} (r : response) : M W unit :=
  if (400 <=? status_code r) && (status_code r <? 600)
  then raise (HTTPError (status_code r))
  else ret tt.

(** [r.json()] *)
Definition response_json {W : Type} (r : response) : M W json :=
  match json_body r with
  | Some j => ret j
  | None => raise JSONDecodeError
  end.

(** [x[k]] with a [str] key *)
Definition getitem {W : Type} (x : json) (k : pystr) : M W json :=
  match x with
  | JDict d =>
      match dict_get k d with
      | Some v => ret v
      | None => raise (KeyError k)
      end
  | _ => raise TypeError
  end.

(** The items [for c in x] goes through: the elements of a list, the keys
    of a dict, the characters of a str; anything else is not iterable. *)
Definition iterate {W : Type} (x : json) : M W (list json) :=
  match x with
  | JList l => ret l
  | JDict d => ret (map (fun kv => JStr (fst kv)) d)
  | JStr s => ret (map (fun c => JStr [c]) s)
  | _ => raise TypeError
  end.

(** ** The program *)

Section Program.

Context {W : Type}.
Variable Wd : World W.
Variable cfg : config.

Definition collections_url : pystr := QDRANT_URL cfg ++ str "/collections".

Definition collection_url : pystr :=
  QDRANT_URL cfg ++ str "/collections/" ++ COLLECTION cfg.

Definition points_url : pystr :=
  QDRANT_URL cfg ++ str "/collections/" ++ COLLECTION cfg ++ str "/points".

Definition get_collections_request : request :=
  mkRequest GET collections_url [] None.

Definition create_collection_request : request :=
  mkRequest PUT collection_url []
    (Some (JDict (dict_of
       [(str "vectors",
         JDict (dict_of [(str "size", JInt (EMBED_DIMS cfg));
                         (str "distance", JStr (str "Cosine"))]))]))).

Definition requests (rq : request) : M W response :=
  call (EvHttp rq) (send Wd rq).

Definition qdrant_get_collections : M W json :=
  r <- requests get_collections_request ;;
  raise_for_status r ;;
  j <- response_json r ;;
  res <- getitem j (str "result") ;;
  getitem res (str "collections").

Definition qdrant_create_collection : M W unit :=
  r <- requests create_collection_request ;;
  raise_for_status r ;;
  print (MsgCreated (COLLECTION cfg)).

(** [[c["name"] for c in qdrant_get_collections()]] *)
Definition collection_names : M W (list json) :=
  colls <- qdrant_get_collections ;;
  items <- iterate colls ;;
  mapM (fun c => getitem c (str "name")) items.

Definition ensure_collection : M W unit :=
  cols <- collection_names ;;
  if negb (existsb (eq_str (COLLECTION cfg)) cols)
  then qdrant_create_collection
  else print (MsgExists (COLLECTION cfg)).

Definition openai_model : pystr := str "text-embedding-3-small".

Definition hf_url : pystr :=
  str "https://api-inference.huggingface.co/models/" ++ HF_EMBED_MODEL cfg.

Definition hf_request (texts : list pystr) : request :=
  mkRequest POST hf_url
    [(str "Authorization",
      str "Bearer " ++ match HF_API_TOKEN cfg with Some t => t | None => [] end)]
    (Some (JDict (dict_of [(str "inputs", JList (map JStr texts))]))).

Definition embed_batch (texts : list pystr) : M W (list json) :=
  if USE_OPENAI cfg then
    data <- call (EvOpenAI openai_model texts)
                 (embeddings_create Wd openai_model texts) ;;
    ret (map embedding data)
  else if USE_HF cfg then
    if negb (truthy (HF_API_TOKEN cfg)) then
      raise (RuntimeError MissingHFToken)
    else
      response <- requests (hf_request texts) ;;
      raise_for_status response ;;
      data <- response_json response ;;
      match data with
      | JList l =>
          if (0 <? len l) && first_is is_list l then ret l
          else if (0 <? len l) && first_is is_number l then ret [data]
          else ret []
      | _ => raise (RuntimeError (UnexpectedHFResponse data))
      end
  else raise (RuntimeError UnknownProvider).

(** [str(uuid.uuid4())] *)
Definition new_uuid : M W pystr :=
  call EvUuid4 (fun w => let '(u, w') := uuid4 Wd w in (inr u, w')).

(** One element of [points]. *)
Definition point (id : pystr) (vec : json) (meta : dict) (chunk : pystr)
    : json :=
  JDict (dict_of
    [(str "id", JStr id);
     (str "vector", vec);
     (str "payload",
      JDict (dict_set (str "content") (JStr chunk) (dict_of meta)))]).

Definition upsert_request (points : list json) : request :=
  mkRequest PUT points_url []
    (Some (JDict (dict_of [(str "points", JList points)]))).

Definition qdrant_upsert (chunks : list pystr) (vectors : list json)
    (meta : dict) : M W unit :=
  points <- mapM (fun cv => id <- new_uuid ;;
                            ret (point id (snd cv) meta (fst cv)))
                 (combine chunks vectors) ;;
  r <- requests (upsert_request points) ;;
  raise_for_status r.

(** [l[k] if len(l) >= n else default] *)
Definition index_or (parts : list pystr) (k : Z) (n : Z) (default : pystr)
    : M W pystr :=
  if n <=? len parts
  then match index parts k with
       | Some v => ret v
       | None => raise IndexError
       end
  else ret default.

(** The [meta] dict of [ingest_doc]. *)
Definition doc_meta (path : pystr) : M W dict :=
  let parts := split sep path in
  doc_id <- ret (fst (splitext (basename path))) ;;
  course_id <- index_or parts (-3) 3 (str "general") ;;
  module_id <- index_or parts (-2) 2 (str "intro") ;;
  ret (dict_of [(str "doc_id", JStr doc_id);
                (str "course_id", JStr course_id);
                (str "module_id", JStr module_id)]).

(** [ingest_doc] from the point where [chunk_text] has returned. *)
Definition ingest_chunks (meta : dict) (chunks : list pystr) : M W json :=
  vectors <- embed_batch chunks ;;
  qdrant_upsert chunks vectors meta ;;
  print (MsgIngested (len chunks)) ;;
  ret JNull.

(** [ingest_doc(path)].  The function has no [return] statement: its
    value is [None]. *)
Definition ingest_doc (fuel : nat) (path : pystr) : M W json :=
  print (MsgIngesting path) ;;
  meta <- doc_meta path ;;
  text <- call (EvOpen path) (read_text Wd path) ;;
  match chunk_text fuel text default_max_chars default_overlap with
  | None => fun s => (Diverge, s)
  | Some chunks => ingest_chunks meta chunks
  end.

Definition glob_pattern : pystr := str "data/**/*.txt".

(** The check made when the module is loaded with the OpenAI provider
    selected. *)
Definition load_module : M W unit :=
  if USE_OPENAI cfg then
    if negb (truthy (OPENAI_API_KEY cfg))
    then raise (RuntimeError MissingOpenAIKey)
    else ret tt
  else ret tt.

(** The lines printed at the start of the [__main__] block. *)
Definition banner : M W unit :=
  print MsgStarting ;;
  if USE_OPENAI cfg then print MsgUsingOpenAI
  else if USE_HF cfg then print (MsgUsingHF (HF_EMBED_MODEL cfg))
  else print MsgUnknownProvider.

(** The [__main__] block. *)
Definition main (fuel : nat) : M W unit :=
  banner ;;
  ensure_collection ;;
  paths <- (fun s => let '(ps, w) := glob_glob Wd glob_pattern (world s) in
                     (Ok ps, mkState w (log s ++ [EvGlob glob_pattern]))) ;;
  forM (fun path => ingest_doc fuel path ;; ret tt) paths ;;
  print MsgDone.

(** The script run from the command line. *)
Definition script (fuel : nat) : M W unit :=
  load_module ;; main fuel.

End Program.

(** ** Vocabulary of the properties *)

(** The text ["a" * 1000]. *)
Definition thousand_a : pystr := repeat 97%N 1000.

(** The element [k] places before the end of [l] ([k = 0] is the last). *)
Definition from_last {A : Type} (k : nat) (l : list A) : option A :=
  nth_error (rev l) k.

(** The path segments: the pieces of the path between separators. *)
Definition segments (path : pystr) : list pystr := split sep path.

(** The index of the last occurrence of [c] in [s]. *)
Fixpoint last_index (c : char) (s : pystr) : option nat :=
  match s with
  | [] => None
  | x :: r =>
      match last_index c r with
      | Some k => Some (S k)
      | None => if N.eqb x c then Some O else None
      end
  end.

(** The file name of a path: its last segment. *)
Definition file_name (path : pystr) : pystr := last (segments path) [].

(** The stem of a file name: the name up to its last dot, when something
    other than dots comes before that dot; the whole name otherwise. *)
Definition stem (name : pystr) : pystr :=
  match last_index extsep name with
  | Some k =>
      if existsb (fun c => negb (N.eqb c extsep)) (firstn k name)
      then firstn k name
      else name
  | None => name
  end.

(** The metadata of the document at [path]. *)
Definition meta_of (path : pystr) : dict :=
  [(str "doc_id", JStr (stem (file_name path)));
   (str "course_id",
    JStr (match from_last 2 (segments path) with
          | Some c => c
          | None => str "general"
          end));
   (str "module_id",
    JStr (match from_last 1 (segments path) with
          | Some m => m
          | None => str "intro"
          end))].



(** How many vectors a HostedInference answer [l] is read as. *)
Definition hf_count (l : list json) : Z :=
  if first_is is_list l then len l
  else if first_is is_number l then 1
  else 0.

Section Vocabulary.

Context {W : Type}.
Variable Wd : World W.
Variable cfg : config.

(** [n] identifiers drawn one after the other from the generator. *)
Fixpoint draw (n : nat) (w : W) : list pystr * W :=
  match n with
  | O => ([], w)
  | S n' =>
      let '(u, w1) := uuid4 Wd w in
      let '(us, w2) := draw n' w1 in
      (u :: us, w2)
  end.

(** The points built from identifiers and (chunk, vector) pairs. *)
Fixpoint points_of (ids : list pystr) (cvs : list (pystr * json))
    (meta : dict) : list json :=
  match ids, cvs with
  | id :: ids', cv :: cvs' =>
      point id (snd cv) meta (fst cv) :: points_of ids' cvs' meta
  | _, _ => []
  end.

(** How many vectors the backend's answer to [texts] carries in world
    [w]: the entries of [res.data] for the OpenAI client, the reading of
    the JSON list for the hosted inference endpoint. *)
Definition backend_count (texts : list pystr) (w : W) : option Z :=
  if USE_OPENAI cfg then
    match fst (embeddings_create Wd (openai_model) texts w) with
    | inr data => Some (len data)
    | inl _ => None
    end
  else
    match fst (send Wd (hf_request cfg texts) w) with
    | inr r =>
        match json_body r with
        | Some (JList l) => Some (hf_count l)
        | _ => None
        end
    | inl _ => None
    end.

(** The hosted inference branch is taken on [texts] in state [s] and the
    endpoint answers, without an error status, the JSON document [data];
    [s'] is the state after the request. *)
Definition hf_answered (texts : list pystr) (s : state W) (data : json)
    (s' : state W) : Prop :=
  USE_OPENAI cfg = false /\ USE_HF cfg = true
  /\ truthy (HF_API_TOKEN cfg) = true
  /\ exists r w',
       send Wd (hf_request cfg texts) (world s) = (inr r, w')
       /\ (400 <=? status_code r) && (status_code r <? 600) = false
       /\ json_body r = Some data
       /\ s' = mkState w' (log s ++ [EvHttp (hf_request cfg texts)]).

(** A create-collection request: a PUT on the collection's URL. *)
Definition is_create (ev : event) : bool :=
  match ev with
  | EvHttp rq =>
      match rq_method rq with
      | PUT => str_eqb (rq_url rq) (collection_url cfg)
      | _ => false
      end
  | _ => false
  end.

(** The number of create-collection requests in a log. *)
Definition creates (l : list event) : nat := List.length (filter is_create l).



(** An event of a run that touches no document: a printed line, the
    collections query or the create-collection request. *)
Definition no_ingestion (ev : event) : Prop :=
  match ev with
  | EvPrint _ => True
  | EvHttp rq => rq = get_collections_request cfg
                 \/ rq = create_collection_request cfg
  | _ => False
  end.

(** [c] only adds to the log, and every event it adds satisfies [P]. *)
Definition appends {A : Type} (P : event -> Prop) (c : M W A) : Prop :=
  forall s, exists new, log (snd (c s)) = log s ++ new /\ Forall P new.

(** The service keeps what it accepted: once a create-collection request
    was answered without an error status, the collections query names the
    collection. *)
Definition keeps_created : Prop :=
  forall w resp w' l,
    send Wd (create_collection_request cfg) w = (inr resp, w') ->
    (400 <=? status_code resp) && (status_code resp <? 600) = false ->
    exists cols s1,
      collection_names Wd cfg (mkState w' l) = (Ok cols, s1)
      /\ existsb (eq_str (COLLECTION cfg)) cols = true.

End Vocabulary.

(** ** Vocabulary of the further properties *)

(** No white space but single spaces; [prev] tells that a space came just
    before. *)
Fixpoint tidy (prev : bool) (s : pystr) : bool :=
  match s with
  | [] => true
  | c :: r =>
      if isspace c then N.eqb c space && negb prev && tidy true r
      else tidy false r
  end.

(** As [tidy], and the text does not end with a space. *)
Fixpoint clean_from (prev : bool) (s : pystr) : bool :=
  match s with
  | [] => negb prev
  | c :: r =>
      if isspace c then N.eqb c space && negb prev && clean_from true r
      else clean_from false r
  end.

(** A text in normal form: words separated by single spaces, with no
    white space at either end and no white space character but the
    space. *)
Definition clean (s : pystr) : bool :=
  match s with
  | [] => true
  | _ :: _ => clean_from true s
  end.

(** The characters of a text that are not white space, in order. *)
Definition nonspace (s : pystr) : pystr :=
  filter (fun c => negb (isspace c)) s.

(** The window number [k] of a text: [max_chars] characters from
    [k * (max_chars - overlap)] on. *)
Definition window (text : pystr) (max_chars overlap : Z) (k : nat)
    : pystr :=
  slice text (Z.of_nat k * (max_chars - overlap))
             (Z.of_nat k * (max_chars - overlap) + max_chars).

(** The number of separators in a path. *)
Definition separators (path : pystr) : nat :=
  List.length (filter (fun c => N.eqb c sep) path).

(** ** A mock of the outside world *)

(** A small index service, embedding backends, file tree and identifier
    generator, used to run the program on concrete inputs. *)
Record mock := mkMock {
  mock_names : list pystr;          (* the collections of the service *)
  mock_create_status : Z;           (* its answer to a create request *)
  mock_hf : response;               (* the hosted inference answer *)
  mock_openai : list embedding_obj; (* res.data of the OpenAI client *)
  mock_files : list (pystr * pystr);
  mock_next : N                     (* the next identifier *)
}.

Definition mock_listing (names : list pystr) : json :=
  JDict [(str "result",
          JDict [(str "collections",
                  JList (map (fun n => JDict [(str "name", JStr n)])
                             names))])].

Definition mock_send (cfg : config) (rq : request) (m : mock)
    : (exn + response) * mock :=
  match rq_method rq with
  | GET => (inr (mkResponse 200 (Some (mock_listing (mock_names m)))), m)
  | POST => (inr (mock_hf m), m)
  | PUT =>
      if str_eqb (rq_url rq) (collection_url cfg) then
        let st := mock_create_status m in
        (inr (mkResponse st (Some (JDict []))),
         if (400 <=? st) && (st <? 600) then m
         else mkMock (COLLECTION cfg :: mock_names m) st (mock_hf m)
                     (mock_openai m) (mock_files m) (mock_next m))
      else (inr (mkResponse 200 (Some (JDict []))), m)
  end.

Fixpoint mock_lookup (path : pystr) (files : list (pystr * pystr))
    : option pystr :=
  match files with
  | [] => None
  | (p, t) :: r => if str_eqb p path then Some t else mock_lookup path r
  end.

Definition mock_world (cfg : config) : World mock :=
  mkWorld mock
    (mock_send cfg)
    (fun _ _ m => (inr (mock_openai m), m))
    (fun path m =>
       match mock_lookup path (mock_files m) with
       | Some t => (inr t, m)
       | None => (inl (External (str "FileNotFoundError")), m)
       end)
    (fun _ m => (map fst (mock_files m), m))
    (fun m => ([mock_next m],
               mkMock (mock_names m) (mock_create_status m) (mock_hf m)
                      (mock_openai m) (mock_files m) (N.succ (mock_next m)))).

(** The configuration the script has when the environment sets only the
    hosted inference token. *)
Definition hf_config : config :=
  mkConfig (str "hf") (str "http://localhost:6333") (str "training_chunks")
           384 (Some (str "token"))
           (str "sentence-transformers/all-MiniLM-L6-v2") None.

(** The same with the OpenAI provider selected. *)
Definition openai_config : config :=
  mkConfig (str "openai") (str "http://localhost:6333")
           (str "training_chunks") 1536 None
           (str "sentence-transformers/all-MiniLM-L6-v2") (Some (str "key")).

Definition ok_response (j : json) : response := mkResponse 200 (Some j).

(** A mock with no collection, no file, and the given backend answers. *)
Definition mock_with (hf : json) (openai : list embedding_obj) : mock :=
  mkMock [] 200 (ok_response hf) openai [] 0.

Definition start {W : Type} (w : W) : state W := mkState w [].

(** The vector [[0.1, 0.2]]. *)
Definition vec01 : json := JList [JFloat (1 # 10); JFloat (2 # 10)].

Definition lesson_path : pystr := str "data/courseA/mod1/lesson.txt".

(** A mock whose only document is blank, whose service has no collection
    yet and answers a create request with [create_status], and whose
    hosted inference endpoint answers the empty list. *)
Definition blank_doc_mock (create_status : Z) : mock :=
  mkMock [] create_status (ok_response (JList [])) []
         [(lesson_path, str "  ")] 0.

(** ** More mocks *)

(** A configuration that selects no known provider. *)
Definition other_config : config :=
  mkConfig (str "local") (str "http://localhost:6333")
           (str "training_chunks") 384 (Some (str "token"))
           (str "sentence-transformers/all-MiniLM-L6-v2") None.

(** The hosted inference provider selected, with no token set. *)
Definition no_token_config : config :=
  mkConfig (str "hf") (str "http://localhost:6333") (str "training_chunks")
           384 None (str "sentence-transformers/all-MiniLM-L6-v2") None.

(** A world in which every HTTP request is answered 503 with a body that
    is not JSON, and nothing else is there. *)
Definition down_world : World unit :=
  mkWorld unit
    (fun _ w => (inr (mkResponse 503 None), w))
    (fun _ _ w => (inl (External (str "APIConnectionError")), w))
    (fun _ w => (inl (External (str "FileNotFoundError")), w))
    (fun _ w => ([], w))
    (fun w => ([], w)).

(** A mock whose hosted inference endpoint answers with the given
    response. *)
Definition mock_answering (r : response) : mock :=
  mkMock [] 200 r [] [] 0.

(** A mock whose only document has some text. *)
Definition text_doc_mock : mock :=
  mkMock [] 200 (ok_response (JList [])) []
         [(lesson_path, str "Hello world. ")] 0.

(** A mock with two blank documents whose hosted inference endpoint
    answers 500. *)
Definition two_docs_mock : mock :=
  mkMock [str "training_chunks"] 200 (mkResponse 500 None) []
         [(str "data/a.txt", []); (str "data/b.txt", [])] 0.

(** * Properties *)

(** ** The chunking loop *)

Section ChunkLoop.

Variable text : pystr.
Variables max_chars overlap : Z.

Lemma loop_body_i (s : loop_state) :
  loop_i (loop_body text max_chars overlap s) =
  Z.max 0 (Z.min (loop_i s + max_chars) (len text) - overlap).
Proof.
  unfold loop_body; simpl.
  destruct (Z.ltb_spec (Z.min (loop_i s + max_chars) (len text) - overlap) 0);
    lia.
Qed.

(** With a positive overlap the window start never reaches the end of a
    non-empty text: the step back from [j = len(text)] lands before it. *)
Lemma chunk_loop_stuck (fuel : nat) :
  forall s, 0 < overlap -> 0 <= loop_i s < len text ->
            chunk_loop fuel text max_chars overlap s = None.
Proof.
  induction fuel as [|fuel IH]; intros s Ho Hi; simpl; [reflexivity|].
  unfold loop_test.
  destruct (Z.ltb_spec (loop_i s) (len text)) as [_|Hge]; [|lia].
  apply IH; [assumption|].
  rewrite loop_body_i. lia.
Qed.

(** Without overlap every iteration moves the start forward, so the loop
    is over after at most [len(text)] iterations. *)
Lemma chunk_loop_exits (k : nat) :
  forall s, 0 < max_chars -> overlap = 0 -> 0 <= loop_i s ->
            len text - loop_i s <= Z.of_nat k ->
            exists chunks,
              chunk_loop (S k) text max_chars overlap s = Some chunks.
Proof.
  induction k as [|k IH]; intros s Hm Ho Hi Hk.
  - simpl. unfold loop_test.
    destruct (Z.ltb_spec (loop_i s) (len text)); [lia|].
    now exists (loop_chunks s).
  - cbn [chunk_loop]. unfold loop_test at 1.
    destruct (Z.ltb_spec (loop_i s) (len text)) as [Hlt|Hge].
    + apply IH; try assumption; rewrite loop_body_i; lia.
    + now exists (loop_chunks s).
Qed.

(** A run that never sees a false test is the iteration of the body. *)
Lemma chunk_loop_after (n fuel : nat) :
  forall s,
    (forall k, (k < n)%nat ->
               loop_test text (loop_after k text max_chars overlap s) = true) ->
    chunk_loop (n + fuel) text max_chars overlap s =
    chunk_loop fuel text max_chars overlap
               (loop_after n text max_chars overlap s).
Proof.
  induction n as [|n IH]; intros s Ht; [reflexivity|].
  cbn [Nat.add chunk_loop loop_after].
  pose proof (Ht O (Nat.lt_0_succ n)) as H0. simpl in H0. rewrite H0.
  apply IH. intros k Hk. apply (Ht (S k)). now apply -> Nat.succ_lt_mono.
Qed.

End ChunkLoop.

(** C1, as the code has it: for parameters with [0 <= overlap < max_chars],
    [chunk_text] returns exactly when the overlap is zero or the
    normalized text is empty; with a positive overlap and any text that
    is not blank the loop runs for ever. *)
Theorem chunk_text_returns_iff (text : pystr) (max_chars overlap : Z) :
  0 <= overlap < max_chars ->
  ((exists fuel chunks, chunk_text fuel text max_chars overlap = Some chunks)
   <-> (overlap = 0 \/ normalize text = [])).
Proof.
  intros Hp. split.
  - intros (fuel & chunks & H).
    destruct (Z.eq_dec overlap 0) as [|Hne]; [now left|right].
    destruct (normalize text) as [|c r] eqn:Hn; [reflexivity|exfalso].
    unfold chunk_text in H. rewrite Hn in H.
    rewrite chunk_loop_stuck in H; [discriminate|lia|].
    simpl. unfold len. simpl. lia.
  - intros [Ho|Hn].
    + exists (S (Z.to_nat (len (normalize text)))).
      apply chunk_loop_exits; simpl; lia.
    + exists 1%nat, []. unfold chunk_text. rewrite Hn. reflexivity.
Qed.

(** On ["a b"] with [max_chars=2], [overlap=1] neither side holds: the
    call never returns. *)
Lemma chunk_text_returns_iff_witness :
  (exists fuel chunks, chunk_text fuel (str "a b") 2 1 = Some chunks)
  <-> (1 = 0 \/ normalize (str "a b") = []).
Proof. apply chunk_text_returns_iff. lia. Defined.

(** C2, as the code has it with the defaults [max_chars=800],
    [overlap=200]: the empty string gives the empty list, and on
    ["short"] the call never returns, whatever the fuel. *)
Theorem chunk_text_defaults_short :
  forall fuel,
    chunk_text (S fuel) [] default_max_chars default_overlap = Some []
    /\ normalize (str "short") = str "short"
    /\ chunk_text fuel (str "short") default_max_chars default_overlap = None.
Proof.
  intros fuel. split; [reflexivity|]. split; [reflexivity|].
  unfold chunk_text. apply chunk_loop_stuck.
  - reflexivity.
  - vm_compute. split; [discriminate|reflexivity].
Qed.

(** C5, as the code has it on [chunk_text("a" * 1000, 100, 20)]: the loop
    goes on for ever; it goes through fourteen iterations whose windows
    start at 0, 80, ..., 960 and then 980, and the chunks cut there have
    lengths 100 (twelve times), then 40, then 20: the thirteenth chunk is
    shorter than [max_chars] and is followed by another one, which starts
    20 after it; and every later window starts at 980 again. *)
Theorem chunk_text_thousand_a :
  normalize thousand_a = thousand_a
  /\ (forall fuel, chunk_text fuel thousand_a 100 20 = None)
  /\ (forall fuel,
        chunk_loop (14 + fuel) thousand_a 100 20 (mkLoop 0 [])
        = chunk_loop fuel thousand_a 100 20
            (loop_after 14 thousand_a 100 20 (mkLoop 0 [])))
  /\ loop_starts 14 thousand_a 100 20 (mkLoop 0 [])
     = [0; 80; 160; 240; 320; 400; 480; 560; 640; 720; 800; 880; 960; 980]
  /\ map len (loop_chunks (loop_after 14 thousand_a 100 20 (mkLoop 0 [])))
     = [100; 100; 100; 100; 100; 100; 100; 100; 100; 100; 100; 100; 40; 20]
  /\ (forall n, loop_i (loop_after (14 + n) thousand_a 100 20 (mkLoop 0 []))
                = 980).
Proof.
  assert (Hn : normalize thousand_a = thousand_a) by (vm_compute; reflexivity).
  split; [exact Hn|]. split; [|split; [|split; [|split]]].
  - intros fuel. unfold chunk_text. rewrite Hn.
    apply chunk_loop_stuck; [reflexivity|].
    vm_compute. split; [discriminate|reflexivity].
  - intros fuel. apply chunk_loop_after. intros k Hk.
    do 14 (destruct k as [|k]; [vm_compute; reflexivity|]). lia.
  - vm_compute. reflexivity.
  - vm_compute. reflexivity.
  - intros n.
    assert (H : forall s, loop_i s = 980 ->
                loop_i (loop_after n thousand_a 100 20 s) = 980).
    { induction n as [|n IH]; intros s Hs; [exact Hs|].
      simpl. apply IH. rewrite loop_body_i, Hs.
      change (len thousand_a) with 1000. reflexivity. }
    assert (Hsplit : forall a b s,
              loop_after (a + b) thousand_a 100 20 s
              = loop_after b thousand_a 100 20 (loop_after a thousand_a 100 20 s)).
    { induction a as [|a IHa]; intros b s; [reflexivity|].
      simpl. apply IHa. }
    rewrite Hsplit. apply H. vm_compute. reflexivity.
Qed.

(** ** Strings and dictionaries *)

Lemma str_eqb_eq (a b : pystr) : str_eqb a b = true <-> a = b.
Proof.
  revert b. induction a as [|x a IH]; intros [|y b]; simpl;
    try (split; [discriminate|discriminate]); [tauto|].
  rewrite andb_true_iff, N.eqb_eq, IH.
  split; [intros [-> ->]; reflexivity|intros H; inversion H; auto].
Qed.

Lemma str_eqb_refl (a : pystr) : str_eqb a a = true.
Proof. now apply str_eqb_eq. Qed.

Lemma str_eqb_neq (a b : pystr) : a <> b -> str_eqb a b = false.
Proof.
  intros H. destruct (str_eqb a b) eqn:E; [|reflexivity].
  now apply str_eqb_eq in E.
Qed.

Lemma dict_get_set_same (k : pystr) (v : json) (d : dict) :
  dict_get k (dict_set k v d) = Some v.
Proof.
  induction d as [|[k' v'] d IH]; simpl.
  - now rewrite str_eqb_refl.
  - destruct (str_eqb k' k) eqn:E; simpl; rewrite E; [reflexivity|exact IH].
Qed.

Lemma dict_get_set_other (k k' : pystr) (v : json) (d : dict) :
  k <> k' -> dict_get k' (dict_set k v d) = dict_get k' d.
Proof.
  intros Hne. induction d as [|[k0 v0] d IH]; simpl.
  - now rewrite str_eqb_neq.
  - destruct (str_eqb k0 k) eqn:E; simpl.
    + apply str_eqb_eq in E. subst k0. now rewrite str_eqb_neq.
    + destruct (str_eqb k0 k'); [reflexivity|exact IH].
Qed.

Lemma dict_set_fresh (k : pystr) (v : json) (d : dict) :
  ~ In k (map fst d) -> dict_set k v d = d ++ [(k, v)].
Proof.
  induction d as [|[k' v'] d IH]; simpl; intros H; [reflexivity|].
  rewrite str_eqb_neq by (intros ->; apply H; now left).
  rewrite IH; [reflexivity|]. intros Hin. apply H. now right.
Qed.

Lemma dict_update_fresh (items : list (pystr * json)) :
  forall d, NoDup (map fst (d ++ items)) -> dict_update d items = d ++ items.
Proof.
  unfold dict_update.
  induction items as [|[k v] items IH]; intros d H; simpl.
  - now rewrite app_nil_r.
  - replace (d ++ (k, v) :: items) with ((d ++ [(k, v)]) ++ items) in H |- *
      by now rewrite <- app_assoc.
    rewrite dict_set_fresh.
    + now apply IH.
    + rewrite !map_app in H. apply NoDup_app_remove_r in H.
      simpl in H. intros Hin. apply NoDup_remove_2 in H.
      apply H. rewrite app_nil_r. exact Hin.
Qed.

(** A display of distinct keys is the list of its items. *)
Lemma dict_of_unique (items : list (pystr * json)) :
  NoDup (map fst items) -> dict_of items = items.
Proof. intros H. now apply (dict_update_fresh items []). Qed.

(** ** The state-passing monad *)

Section Monad.

Context {W : Type}.

Lemma bind_ok {A B : Type} (c : M W A) (k : A -> M W B) s a s' :
  c s = (Ok a, s') -> bind c k s = k a s'.
Proof. unfold bind. now intros ->. Qed.

Lemma bind_raise {A B : Type} (c : M W A) (k : A -> M W B) s e s' :
  c s = (Raise e, s') -> bind c k s = (Raise e, s').
Proof. unfold bind. now intros ->. Qed.

(** A bind that ends with a value went through both of its parts. *)
Lemma bind_inv_ok {A B : Type} (c : M W A) (k : A -> M W B) s b s' :
  bind c k s = (Ok b, s') ->
  exists a s1, c s = (Ok a, s1) /\ k a s1 = (Ok b, s').
Proof.
  unfold bind. destruct (c s) as [[a|e|] s1]; intros H; try discriminate.
  now exists a, s1.
Qed.

Lemma call_inr {A : Type} (ev : event) (h : W -> (exn + A) * W) s a w :
  h (world s) = (inr a, w) ->
  call ev h s = (Ok a, mkState w (log s ++ [ev])).
Proof. unfold call. now intros ->. Qed.

Lemma call_inv_ok {A : Type} (ev : event) (h : W -> (exn + A) * W) s a s' :
  call ev h s = (Ok a, s') ->
  exists w, h (world s) = (inr a, w) /\ s' = mkState w (log s ++ [ev]).
Proof.
  unfold call. destruct (h (world s)) as [[e|a0] w]; intros H;
    inversion H; subst. now exists w.
Qed.

Lemma raise_for_status_ok (r : response) (s : state W) :
  (400 <=? status_code r) && (status_code r <? 600) = false ->
  raise_for_status r s = (Ok tt, s).
Proof. unfold raise_for_status. now intros ->. Qed.

Lemma raise_for_status_error (r : response) (s : state W) :
  400 <= status_code r < 600 ->
  raise_for_status r s = (Raise (HTTPError (status_code r)), s).
Proof.
  intros H. unfold raise_for_status.
  replace ((400 <=? status_code r) && (status_code r <? 600)) with true;
    [reflexivity|].
  symmetry. apply andb_true_iff. split; [apply Z.leb_le|apply Z.ltb_lt]; lia.
Qed.

Lemma raise_for_status_inv_ok (r : response) (s s' : state W) u :
  raise_for_status r s = (Ok u, s') ->
  (400 <=? status_code r) && (status_code r <? 600) = false /\ s' = s.
Proof.
  unfold raise_for_status.
  destruct ((400 <=? status_code r) && (status_code r <? 600));
    intros H; inversion H; auto.
Qed.

Lemma response_json_inv_ok (r : response) (s s' : state W) j :
  response_json r s = (Ok j, s') -> json_body r = Some j /\ s' = s.
Proof.
  unfold response_json. destruct (json_body r); intros H; inversion H; auto.
Qed.

End Monad.

(** ** The embedding provider *)

Section Embedding.

Context {W : Type}.
Variable Wd : World W.
Variable cfg : config.

(** In the hosted inference branch the call is the request followed by
    the reading of the answer's shape. *)
Lemma embed_batch_hf (texts : list pystr) (s s' : state W) (data : json) :
  hf_answered Wd cfg texts s data s' ->
  embed_batch Wd cfg texts s =
  match data with
  | JList l =>
      if (0 <? len l) && first_is is_list l then (Ok l, s')
      else if (0 <? len l) && first_is is_number l then (Ok [data], s')
      else (Ok [], s')
  | _ => (Raise (RuntimeError (UnexpectedHFResponse data)), s')
  end.
Proof.
  intros (Ho & Hh & Ht & r & w' & Hs & Hst & Hj & ->).
  unfold embed_batch. rewrite Ho, Hh, Ht. change (negb true) with false. cbv iota.
  unfold requests.
  rewrite (bind_ok _ _ _ _ _ (call_inr _ _ _ _ _ Hs)).
  rewrite (bind_ok _ _ _ _ _ (raise_for_status_ok _ _ Hst)).
  unfold response_json at 1. rewrite Hj.
  unfold bind at 1, ret at 1.
  destruct data as [| | | | |l|]; try reflexivity.
  destruct ((0 <? len l) && first_is is_list l); [reflexivity|].
  destruct ((0 <? len l) && first_is is_number l); reflexivity.
Qed.

(** The reading of the answer's shape, case by case: a list whose first
    element is a list is returned as it is; a list whose first element is
    a number is returned as one embedding; the empty list is returned as
    no embedding; a document that is not a list raises the error that
    carries the payload. *)
Theorem embed_batch_hf_shapes (texts : list pystr) (s s' : state W)
    (data : json) :
  hf_answered Wd cfg texts s data s' ->
  (forall v rest, data = JList (JList v :: rest) ->
     embed_batch Wd cfg texts s = (Ok (JList v :: rest), s'))
  /\ (forall x rest, data = JList (x :: rest) -> is_number x = true ->
        embed_batch Wd cfg texts s = (Ok [data], s'))
  /\ (data = JList [] -> embed_batch Wd cfg texts s = (Ok [], s'))
  /\ (is_list data = false ->
        embed_batch Wd cfg texts s
        = (Raise (RuntimeError (UnexpectedHFResponse data)), s')).
Proof.
  intros H. rewrite (embed_batch_hf _ _ _ _ H).
  split; [|split; [|split]].
  - intros v rest ->. reflexivity.
  - intros x rest -> Hx. simpl first_is. rewrite Hx.
    destruct x; try discriminate; reflexivity.
  - intros ->. reflexivity.
  - intros Hl. destruct data; try reflexivity. discriminate.
Qed.

(** C3, as the code has it: of the shapes that are neither a list of
    lists nor a flat list of numbers, only the answer that is not a list
    raises the error that carries the payload; a list that is empty, or
    whose first element is neither a list nor a number (such as [[]] or
    [["x"]]), falls through both tests: the call returns no embedding at
    all and raises nothing. *)
Theorem embed_batch_falls_through (texts : list pystr) (s s' : state W)
    (data : json) :
  hf_answered Wd cfg texts s data s' ->
  (forall l, data = JList l ->
             first_is is_list l = false -> first_is is_number l = false ->
             embed_batch Wd cfg texts s = (Ok [], s'))
  /\ (is_list data = false ->
      embed_batch Wd cfg texts s
      = (Raise (RuntimeError (UnexpectedHFResponse data)), s')).
Proof.
  intros H. rewrite (embed_batch_hf _ _ _ _ H). split.
  - intros l -> Hl Hn. now rewrite Hl, Hn, !andb_false_r.
  - intros Hl. destruct data; try reflexivity. discriminate.
Qed.

(** C4, as the code has it: a successful call returns exactly as many
    vectors as the backend's answer carries, whatever the number of input
    chunks; the two numbers agree when the backend answers with one
    embedding per chunk. *)
Theorem embed_batch_count (texts : list pystr) (s s' : state W)
    (vectors : list json) :
  embed_batch Wd cfg texts s = (Ok vectors, s') ->
  backend_count Wd cfg texts (world s) = Some (len vectors).
Proof.
  unfold embed_batch, backend_count.
  destruct (USE_OPENAI cfg).
  - intros H. apply bind_inv_ok in H. destruct H as (data & s1 & Hc & Hr).
    apply call_inv_ok in Hc. destruct Hc as (w & Hw & ->).
    rewrite Hw. simpl. inversion Hr; subst.
    unfold len. now rewrite length_map.
  - destruct (USE_HF cfg); [|discriminate].
    destruct (negb (truthy (HF_API_TOKEN cfg))); [discriminate|].
    intros H. apply bind_inv_ok in H. destruct H as (r & s1 & Hc & H).
    apply call_inv_ok in Hc. destruct Hc as (w & Hw & ->).
    apply bind_inv_ok in H. destruct H as (u & s2 & Hst & H).
    apply raise_for_status_inv_ok in Hst. destruct Hst as [_ ->].
    apply bind_inv_ok in H. destruct H as (data & s3 & Hj & H).
    apply response_json_inv_ok in Hj. destruct Hj as [Hj ->].
    rewrite Hw. simpl. rewrite Hj.
    destruct data as [| | | | |l|]; try discriminate.
    unfold hf_count.
    destruct l as [|x l]; [inversion H; reflexivity|].
    replace (0 <? len (x :: l)) with true in H
      by (symmetry; apply Z.ltb_lt; unfold len; simpl; lia).
    simpl in H |- *.
    destruct (is_list x); [inversion H; reflexivity|].
    destruct (is_number x); inversion H; reflexivity.
Qed.

End Embedding.

(** ** The upsert *)

Section Upsert.

Context {W : Type}.
Variable Wd : World W.
Variable cfg : config.

Lemma draw_length (n : nat) : forall w, List.length (fst (draw Wd n w)) = n.
Proof.
  induction n as [|n IH]; intros w; simpl; [reflexivity|].
  destruct (uuid4 Wd w) as [u w1]. specialize (IH w1).
  destruct (draw Wd n w1) as [us w2]. simpl in *. now rewrite IH.
Qed.

(** The loop over [zip(chunks, vectors)]: one identifier is drawn per
    pair, in order. *)
Lemma mapM_points (meta : dict) (cvs : list (pystr * json)) :
  forall s : state W,
    mapM (fun cv => id <- new_uuid Wd ;;
                    ret (point id (snd cv) meta (fst cv))) cvs s
    = (Ok (points_of (fst (draw Wd (List.length cvs) (world s))) cvs meta),
       mkState (snd (draw Wd (List.length cvs) (world s)))
               (log s ++ repeat EvUuid4 (List.length cvs))).
Proof.
  induction cvs as [|cv cvs IH]; intros s.
  - simpl. unfold ret. rewrite app_nil_r. now destruct s.
  - cbn [mapM List.length draw repeat].
    unfold bind at 1. unfold bind at 1. unfold new_uuid at 1, call at 1.
    destruct (uuid4 Wd (world s)) as [u w1]. unfold ret at 1.
    unfold bind at 1. rewrite IH. cbn [world log].
    destruct (draw Wd (List.length cvs) w1) as [us w2].
    unfold ret. cbn [fst snd points_of].
    now rewrite <- app_assoc.
Qed.

Lemma points_of_length (meta : dict) (cvs : list (pystr * json)) :
  forall ids, List.length ids = List.length cvs ->
              List.length (points_of ids cvs meta) = List.length cvs.
Proof.
  induction cvs as [|cv cvs IH]; intros [|id ids] H; simpl in *;
    try reflexivity; try discriminate.
  now rewrite IH by lia.
Qed.

Lemma points_of_nth (meta : dict) (cvs : list (pystr * json)) :
  forall ids k c v id,
    nth_error cvs k = Some (c, v) -> nth_error ids k = Some id ->
    nth_error (points_of ids cvs meta) k = Some (point id v meta c).
Proof.
  induction cvs as [|cv cvs IH]; intros [|i ids] [|k] c v id Hc Hi;
    simpl in *; try discriminate.
  - inversion Hc; inversion Hi; subst. reflexivity.
  - now apply IH.
Qed.

Lemma combine_nth_error {A B : Type} (l : list A) :
  forall (l' : list B) k a b,
    nth_error l k = Some a -> nth_error l' k = Some b ->
    nth_error (combine l l') k = Some (a, b).
Proof.
  induction l as [|x l IH]; intros [|y l'] [|k] a b Ha Hb; simpl in *;
    try discriminate.
  - now inversion Ha; inversion Hb.
  - now apply IH.
Qed.

(** The call is the loop followed by one request. *)
Lemma qdrant_upsert_run (chunks : list pystr) (vectors : list json)
    (meta : dict) (s : state W) :
  let n := Nat.min (List.length chunks) (List.length vectors) in
  let points := points_of (fst (draw Wd n (world s)))
                          (combine chunks vectors) meta in
  qdrant_upsert Wd cfg chunks vectors meta s
  = (r <- requests Wd (upsert_request cfg points) ;; raise_for_status r)
      (mkState (snd (draw Wd n (world s))) (log s ++ repeat EvUuid4 n)).
Proof.
  intros n points. unfold qdrant_upsert.
  erewrite bind_ok by apply mapM_points.
  unfold points, n. now rewrite length_combine.
Qed.

Lemma points_of_shape (meta : dict) (cvs : list (pystr * json)) :
  forall ids,
    Forall (fun p => exists id v c, p = point id v meta c)
           (points_of ids cvs meta).
Proof.
  induction cvs as [|cv cvs IH]; intros [|id ids]; simpl; constructor.
  - now exists id, (snd cv), (fst cv).
  - apply IH.
Qed.

(** C10: [qdrant_upsert] builds exactly [min(len(chunks), len(vectors))]
    points; the point at place [k] has the [k]-th identifier drawn in the
    call, vector [k], and a payload that holds chunk [k] under ["content"]
    and agrees with [meta] on every other key; the points are sent in one
    request, and how the call ends depends on the answer to that request
    only, so that chunks beyond the last vector are left out without an
    error. *)
Theorem qdrant_upsert_points (chunks : list pystr) (vectors : list json)
    (meta : dict) (s : state W) :
  let n := Nat.min (List.length chunks) (List.length vectors) in
  let ids := fst (draw Wd n (world s)) in
  let points := points_of ids (combine chunks vectors) meta in
  len points = Z.min (len chunks) (len vectors)
  /\ (forall k c v,
        nth_error chunks k = Some c -> nth_error vectors k = Some v ->
        exists id payload,
          nth_error ids k = Some id
          /\ nth_error points k
             = Some (JDict [(str "id", JStr id); (str "vector", v);
                            (str "payload", JDict payload)])
          /\ dict_get (str "content") payload = Some (JStr c)
          /\ forall key, key <> str "content" ->
                         dict_get key payload = dict_get key (dict_of meta))
  /\ (NoDup (map fst meta) -> dict_of meta = meta)
  /\ log (snd (qdrant_upsert Wd cfg chunks vectors meta s))
     = log s ++ repeat EvUuid4 n ++ [EvHttp (upsert_request cfg points)]
  /\ fst (qdrant_upsert Wd cfg chunks vectors meta s)
     = match fst (send Wd (upsert_request cfg points)
                       (snd (draw Wd n (world s)))) with
       | inl e => Raise e
       | inr r => if (400 <=? status_code r) && (status_code r <? 600)
                  then Raise (HTTPError (status_code r))
                  else Ok tt
       end.
Proof.
  intros n ids points.
  assert (Hn : List.length (combine chunks vectors) = n)
    by apply length_combine.
  assert (Hids : List.length ids = n) by apply draw_length.
  split; [|split; [|split; [apply dict_of_unique|]]].
  - unfold len, points. rewrite points_of_length by congruence.
    rewrite Hn. unfold n. lia.
  - intros k c v Hc Hv.
    assert (Hk : (k < n)%nat).
    { unfold n. apply Nat.min_glb_lt;
        apply nth_error_Some; congruence. }
    destruct (nth_error ids k) as [id|] eqn:Hid.
    + exists id, (dict_set (str "content") (JStr c) (dict_of meta)).
      split; [reflexivity|]. split; [|split].
      * apply (points_of_nth meta _ ids k c v id); [|exact Hid].
        now apply combine_nth_error.
      * apply dict_get_set_same.
      * intros key Hkey. apply dict_get_set_other. congruence.
    + apply nth_error_None in Hid. lia.
  - rewrite qdrant_upsert_run. fold n. fold ids. fold points.
    unfold bind, requests, call. cbn [world log].
    destruct (send Wd (upsert_request cfg points) (snd (draw Wd n (world s))))
      as [[e|r] w2]; cbn [fst snd log].
    + split; [now rewrite <- app_assoc|reflexivity].
    + unfold raise_for_status.
      destruct ((400 <=? status_code r) && (status_code r <? 600));
        cbn [fst snd log]; (split; [now rewrite <- app_assoc|reflexivity]).
Qed.

End Upsert.

(** ** Paths *)

Section Paths.

Variable c : char.

Lemma rfind_from_spec (s : pystr) :
  forall pos found,
    rfind_from c s pos found =
    match last_index c s with
    | Some k => pos + Z.of_nat k
    | None => found
    end.
Proof.
  induction s as [|x r IH]; intros pos found; simpl; [reflexivity|].
  rewrite IH. destruct (last_index c r) as [k|]; [lia|].
  destruct (N.eqb x c); [simpl; lia|reflexivity].
Qed.

Lemma rfind_spec (s : pystr) :
  rfind c s = match last_index c s with
              | Some k => Z.of_nat k
              | None => -1
              end.
Proof.
  unfold rfind. rewrite rfind_from_spec. now destruct (last_index c s).
Qed.

Lemma last_index_lt (s : pystr) :
  forall k, last_index c s = Some k -> (k < List.length s)%nat.
Proof.
  induction s as [|x r IH]; intros k; simpl; [discriminate|].
  destruct (last_index c r) as [k'|].
  - intros H. inversion H. specialize (IH k' eq_refl). lia.
  - destruct (N.eqb x c); intros H; inversion H. lia.
Qed.

(** Nothing is left of [c] after its last occurrence. *)
Lemma last_index_skipn (s : pystr) :
  forall k, last_index c s = Some k -> last_index c (skipn (S k) s) = None.
Proof.
  induction s as [|x r IH]; intros k; simpl; [discriminate|].
  destruct (last_index c r) as [k'|] eqn:E.
  - intros H. inversion H. now apply IH.
  - destruct (N.eqb x c); intros H; inversion H. exact E.
Qed.

Lemma split_two (s : pystr) :
  forall k, last_index c s = Some k ->
            exists h h' t, split c s = h :: h' :: t.
Proof.
  induction s as [|x r IH]; intros k; simpl; [discriminate|].
  destruct (N.eqb x c) eqn:Ex.
  - intros _. destruct r as [|y r']; simpl.
    + now exists [], [], [].
    + destruct (N.eqb y c).
      * now exists [], [], (split c r').
      * destruct (split c r') as [|h t]; [now exists [], [y], []|].
        now exists [], (y :: h), t.
  - destruct (last_index c r) as [k'|]; [|discriminate].
    intros _. destruct (IH k' eq_refl) as (h & h' & t & ->).
    now exists (x :: h), h', t.
Qed.

Lemma split_one (s : pystr) : last_index c s = None -> split c s = [s].
Proof.
  induction s as [|x r IH]; simpl; [reflexivity|].
  destruct (last_index c r); [discriminate|].
  destruct (N.eqb x c); [discriminate|].
  intros _. now rewrite IH.
Qed.

(** The last piece of the split is what follows the last separator. *)
Lemma last_split (s : pystr) :
  last (split c s) [] = match last_index c s with
                        | Some k => skipn (S k) s
                        | None => s
                        end.
Proof.
  induction s as [|x r IH]; [reflexivity|].
  cbn [split last_index].
  destruct (N.eqb x c) eqn:Ex.
  - assert (Hl : last ([] :: split c r) [] = last (split c r) []).
    { destruct r as [|y r']; [reflexivity|]. simpl.
      destruct (N.eqb y c); [reflexivity|].
      now destruct (split c r'). }
    etransitivity; [exact Hl|]. etransitivity; [exact IH|].
    now destruct (last_index c r).
  - destruct (last_index c r) as [k|] eqn:E.
    + destruct (split_two r k E) as (h & h' & t & Hs).
      rewrite Hs in IH |- *. exact IH.
    + now rewrite (split_one r E).
Qed.

End Paths.

Lemma slice_firstn_skipn {A : Type} (l : list A) (a b : nat) :
  (a <= b <= List.length l)%nat ->
  slice l (Z.of_nat a) (Z.of_nat b) = firstn (b - a) (skipn a l).
Proof.
  intros H. unfold slice, slice_bound, len.
  destruct (Z.ltb_spec (Z.of_nat a) 0); [lia|].
  destruct (Z.ltb_spec (Z.of_nat b) 0); [lia|].
  f_equal; [|f_equal]; lia.
Qed.

(** [os.path.basename] is the last segment of the path. *)
Lemma basename_file_name (path : pystr) : basename path = file_name path.
Proof.
  unfold basename, file_name, segments. rewrite last_split, rfind_spec.
  destruct (last_index sep path) as [k|] eqn:E.
  - apply last_index_lt in E.
    replace (Z.of_nat k + 1) with (Z.of_nat (S k)) by lia.
    unfold len. rewrite slice_firstn_skipn by lia.
    apply firstn_all2. rewrite length_skipn. lia.
  - change (-1 + 1) with (Z.of_nat 0). unfold len.
    rewrite slice_firstn_skipn by lia. simpl skipn.
    apply firstn_all2. lia.
Qed.

Lemma file_name_no_sep (path : pystr) :
  last_index sep (file_name path) = None.
Proof.
  unfold file_name, segments. rewrite last_split.
  destruct (last_index sep path) as [k|] eqn:E; [|exact E].
  now apply last_index_skipn.
Qed.

(** [os.path.splitext] of a file name gives its stem. *)
Lemma splitext_stem (name : pystr) :
  last_index sep name = None -> fst (splitext name) = stem name.
Proof.
  intros Hs. unfold splitext, stem. rewrite !rfind_spec, Hs.
  destruct (last_index extsep name) as [k|] eqn:E.
  - apply last_index_lt in E.
    replace (-1 <? Z.of_nat k) with true by (symmetry; apply Z.ltb_lt; lia).
    change (-1 + 1) with (Z.of_nat 0).
    rewrite !slice_firstn_skipn by lia.
    simpl skipn. rewrite Nat.sub_0_r. simpl andb.
    destruct (existsb (fun c => negb (N.eqb c extsep)) (firstn k name));
      [|reflexivity].
    simpl fst. change 0 with (Z.of_nat 0).
    rewrite slice_firstn_skipn by lia. simpl skipn. now rewrite Nat.sub_0_r.
  - reflexivity.
Qed.

Lemma index_from_last {A : Type} (l : list A) (k : nat) :
  (k < List.length l)%nat ->
  index l (- Z.of_nat (S k)) = from_last k l.
Proof.
  intros H. unfold index, from_last, len. rewrite nth_error_rev.
  destruct (Z.ltb_spec (- Z.of_nat (S k)) 0); [|lia].
  destruct (Nat.ltb_spec k (List.length l)); [|lia].
  replace ((0 <=? - Z.of_nat (S k) + Z.of_nat (List.length l))
           && (- Z.of_nat (S k) + Z.of_nat (List.length l)
               <? Z.of_nat (List.length l))) with true.
  - f_equal. lia.
  - symmetry. apply andb_true_iff.
    split; [apply Z.leb_le|apply Z.ltb_lt]; lia.
Qed.

Lemma index_or_from_last {W : Type} (parts : list pystr) (k : nat)
    (default : pystr) (s : state W) :
  index_or parts (- Z.of_nat (S k)) (Z.of_nat (S k)) default s
  = (Ok (match from_last k parts with
         | Some v => v
         | None => default
         end), s).
Proof.
  unfold index_or, len.
  destruct (Z.leb_spec (Z.of_nat (S k)) (Z.of_nat (List.length parts))).
  - rewrite index_from_last by lia.
    unfold from_last.
    destruct (nth_error (rev parts) k) eqn:E; [reflexivity|].
    apply nth_error_None in E. rewrite length_rev in E. lia.
  - unfold from_last.
    replace (nth_error (rev parts) k) with (@None pystr); [reflexivity|].
    symmetry. apply nth_error_None. rewrite length_rev. lia.
Qed.

(** The metadata is computed from the path alone and never fails. *)
Lemma doc_meta_of {W : Type} (path : pystr) (s : state W) :
  doc_meta path s = (Ok (meta_of path), s).
Proof.
  unfold doc_meta. unfold bind at 1, ret at 1.
  erewrite bind_ok by apply (index_or_from_last _ 2).
  erewrite bind_ok by apply (index_or_from_last _ 1).
  unfold ret, meta_of, segments.
  rewrite basename_file_name, splitext_stem by apply file_name_no_sep.
  reflexivity.
Qed.

(** ** What a piece of the program adds to the log *)

Section Logs.

Context {W : Type}.
Variable P : event -> Prop.

Lemma appends_ret {A : Type} (a : A) : appends P (ret a : M W A).
Proof. intros s. exists []. simpl. now rewrite app_nil_r. Qed.

Lemma appends_raise {A : Type} (e : exn) : appends P (raise e : M W A).
Proof. intros s. exists []. simpl. now rewrite app_nil_r. Qed.

Lemma appends_bind {A B : Type} (c : M W A) (k : A -> M W B) :
  appends P c -> (forall a, appends P (k a)) -> appends P (bind c k).
Proof.
  intros Hc Hk s. unfold bind.
  destruct (Hc s) as (n1 & E1 & F1).
  destruct (c s) as [[a|e|] s1]; simpl in E1; try (now exists n1).
  destruct (Hk a s1) as (n2 & E2 & F2).
  exists (n1 ++ n2). split.
  - now rewrite E2, E1, app_assoc.
  - now apply Forall_app.
Qed.

Lemma appends_call {A : Type} (ev : event) (h : W -> (exn + A) * W) :
  P ev -> appends P (call ev h).
Proof.
  intros Hev s. exists [ev]. unfold call.
  destruct (h (world s)) as [[e|a] w]; simpl; auto.
Qed.

Lemma appends_print (m : message) : P (EvPrint m) -> appends P (@print W m).
Proof. intros Hm s. exists [EvPrint m]. simpl. auto. Qed.

Lemma appends_mapM {A B : Type} (f : A -> M W B) (l : list A) :
  (forall a, appends P (f a)) -> appends P (mapM f l).
Proof.
  intros Hf. induction l as [|a l IH]; simpl.
  - apply appends_ret.
  - apply appends_bind; [apply Hf|]. intros b.
    apply appends_bind; [exact IH|]. intros bs. apply appends_ret.
Qed.

Lemma appends_forM {A : Type} (f : A -> M W unit) (l : list A) :
  (forall a, appends P (f a)) -> appends P (forM f l).
Proof.
  intros Hf. induction l as [|a l IH]; simpl.
  - apply appends_ret.
  - apply appends_bind; [apply Hf|]. intros _. exact IH.
Qed.

Lemma appends_raise_for_status (r : response) :
  appends P (@raise_for_status W r).
Proof.
  unfold raise_for_status.
  destruct ((400 <=? status_code r) && (status_code r <? 600));
    [apply appends_raise|apply appends_ret].
Qed.

Lemma appends_response_json (r : response) : appends P (@response_json W r).
Proof.
  unfold response_json.
  destruct (json_body r); [apply appends_ret|apply appends_raise].
Qed.

Lemma appends_getitem (x : json) (k : pystr) : appends P (@getitem W x k).
Proof.
  unfold getitem. destruct x; try apply appends_raise.
  destruct (dict_get k d); [apply appends_ret|apply appends_raise].
Qed.

Lemma appends_iterate (x : json) : appends P (@iterate W x).
Proof.
  unfold iterate. destruct x; try apply appends_raise; apply appends_ret.
Qed.

End Logs.

Create HintDb logs.

#[local] Hint Resolve appends_ret appends_raise appends_call appends_print
  appends_raise_for_status appends_response_json appends_getitem
  appends_iterate : logs.

Section ProgramLogs.

Context {W : Type}.
Variable Wd : World W.
Variable cfg : config.
Variable P : event -> Prop.

Lemma appends_collection_names :
  P (EvHttp (get_collections_request cfg)) ->
  appends P (collection_names Wd cfg).
Proof.
  intros Hg. unfold collection_names, qdrant_get_collections, requests.
  repeat (apply appends_bind; [|intros ?]); auto with logs.
  apply appends_mapM. auto with logs.
Qed.

Lemma appends_embed_batch (texts : list pystr) :
  (forall m i, P (EvOpenAI m i)) ->
  P (EvHttp (hf_request cfg texts)) ->
  appends P (embed_batch Wd cfg texts).
Proof.
  intros Ho Hh. unfold embed_batch, requests.
  destruct (USE_OPENAI cfg).
  - apply appends_bind; [|intros ?]; auto with logs.
  - destruct (USE_HF cfg); [|auto with logs].
    destruct (negb (truthy (HF_API_TOKEN cfg))); [auto with logs|].
    repeat (apply appends_bind; [|intros ?]); auto with logs.
    destruct a1; auto with logs.
    destruct ((0 <? len l) && first_is is_list l); [auto with logs|].
    destruct ((0 <? len l) && first_is is_number l); auto with logs.
Qed.

Lemma appends_qdrant_upsert (chunks : list pystr) (vectors : list json)
    (meta : dict) :
  P EvUuid4 ->
  (forall points,
     Forall (fun p => exists id v c, p = point id v meta c) points ->
     P (EvHttp (upsert_request cfg points))) ->
  appends P (qdrant_upsert Wd cfg chunks vectors meta).
Proof.
  intros Hu Hp s. rewrite qdrant_upsert_run.
  set (n := Nat.min _ _). set (points := points_of _ _ _).
  set (s1 := mkState _ _).
  assert (Ha : appends P (r <- requests Wd (upsert_request cfg points) ;;
                          raise_for_status r)).
  { unfold requests. apply appends_bind; [|intros ?]; auto with logs.
    apply appends_call. apply Hp. apply points_of_shape. }
  destruct (Ha s1) as (new & E & F).
  exists (repeat EvUuid4 n ++ new). split.
  - rewrite E. unfold s1. simpl. now rewrite app_assoc.
  - apply Forall_app. split; [|exact F].
    clear - Hu. induction n; simpl; constructor; auto.
Qed.

End ProgramLogs.

(** ** Ingestion of one document *)

Section Ingestion.

Context {W : Type}.
Variable Wd : World W.
Variable cfg : config.

Lemma appends_bind_pure {A B : Type} (P : event -> Prop) (c : M W A)
    (k : A -> M W B) (a : A) :
  (forall s, c s = (Ok a, s)) -> appends P (k a) -> appends P (bind c k).
Proof.
  intros Hc Hk s. unfold bind. rewrite Hc. apply Hk.
Qed.




(** [ingest_doc] up to the reading of the file. *)
Lemma ingest_doc_read (fuel : nat) (path : pystr) (s : state W) :
  ingest_doc Wd cfg fuel path s
  = match read_text Wd path (world s) with
    | (inl e, w) =>
        (Raise e,
         mkState w (log s ++ [EvPrint (MsgIngesting path); EvOpen path]))
    | (inr text, w) =>
        match chunk_text fuel text default_max_chars default_overlap with
        | None =>
            (Diverge,
             mkState w (log s ++ [EvPrint (MsgIngesting path);
                                  EvOpen path]))
        | Some chunks =>
            ingest_chunks Wd cfg (meta_of path) chunks
              (mkState w (log s ++ [EvPrint (MsgIngesting path);
                                    EvOpen path]))
        end
    end.
Proof.
  unfold ingest_doc. unfold bind at 1, print at 1.
  unfold bind at 1. rewrite doc_meta_of.
  unfold bind at 1, call. cbn [world log].
  destruct (read_text Wd path (world s)) as [[e|text] w];
    rewrite <- app_assoc; [reflexivity|].
  now destruct (chunk_text fuel text default_max_chars default_overlap).
Qed.





End Ingestion.

(** ** The collection and the batch run *)

Section Collection.

Context {W : Type}.
Variable Wd : World W.
Variable cfg : config.

Lemma creates_app (l l' : list event) :
  creates cfg (l ++ l') = (creates cfg l + creates cfg l')%nat.
Proof. unfold creates. now rewrite filter_app, length_app. Qed.

Lemma creates_none (l : list event) :
  Forall (fun ev => is_create cfg ev = false) l -> creates cfg l = O.
Proof.
  unfold creates. induction 1 as [|ev l Hev _ IH]; simpl; [reflexivity|].
  now rewrite Hev.
Qed.

Lemma is_create_create :
  is_create cfg (EvHttp (create_collection_request cfg)) = true.
Proof. simpl. apply str_eqb_refl. Qed.

Lemma creates_print (m : message) : creates cfg [EvPrint m] = O.
Proof. reflexivity. Qed.

Lemma creates_create :
  creates cfg [EvHttp (create_collection_request cfg)] = 1%nat.
Proof. unfold creates. cbn [filter]. now rewrite is_create_create. Qed.

(** The collections query issues no create-collection request. *)
Lemma collection_names_creates (s : state W) :
  creates cfg (log (snd (collection_names Wd cfg s))) = creates cfg (log s).
Proof.
  destruct (appends_collection_names Wd cfg
              (fun ev => is_create cfg ev = false) eq_refl s)
    as (new & E & F).
  rewrite E, creates_app, (creates_none _ F). lia.
Qed.

(** What one call of [ensure_collection] is, by the result of the
    collections query. *)
Lemma ensure_collection_listed (s s1 : state W) (cols : list json) :
  collection_names Wd cfg s = (Ok cols, s1) ->
  existsb (eq_str (COLLECTION cfg)) cols = true ->
  ensure_collection Wd cfg s
  = (Ok tt, mkState (world s1)
                    (log s1 ++ [EvPrint (MsgExists (COLLECTION cfg))])).
Proof.
  intros Hq Hin. unfold ensure_collection.
  rewrite (bind_ok _ _ _ _ _ Hq), Hin. reflexivity.
Qed.

Lemma ensure_collection_missing (s s1 : state W) (cols : list json) :
  collection_names Wd cfg s = (Ok cols, s1) ->
  existsb (eq_str (COLLECTION cfg)) cols = false ->
  ensure_collection Wd cfg s = qdrant_create_collection Wd cfg s1.
Proof.
  intros Hq Hin. unfold ensure_collection.
  rewrite (bind_ok _ _ _ _ _ Hq), Hin. reflexivity.
Qed.

(** A call that ends well either found the collection listed and sent no
    create request, or sent one that the service accepted. *)
Lemma ensure_collection_ok_inv (s s' : state W) (u : unit) :
  ensure_collection Wd cfg s = (Ok u, s') ->
  creates cfg (log s') = creates cfg (log s)
  \/ (creates cfg (log s') = S (creates cfg (log s))
      /\ exists w resp,
           send Wd (create_collection_request cfg) w = (inr resp, world s')
           /\ (400 <=? status_code resp) && (status_code resp <? 600)
              = false).
Proof.
  intros H. pose proof (collection_names_creates s) as Hc.
  destruct (collection_names Wd cfg s) as [[cols|e|] s1] eqn:Hq;
    try (unfold ensure_collection, bind in H; rewrite Hq in H; discriminate).
  cbn [snd] in Hc.
  destruct (existsb (eq_str (COLLECTION cfg)) cols) eqn:Hin.
  - left. rewrite (ensure_collection_listed _ _ _ Hq Hin) in H.
    inversion H; subst s'. cbn [log].
    rewrite creates_app, creates_print, Hc. lia.
  - right. rewrite (ensure_collection_missing _ _ _ Hq Hin) in H.
    unfold qdrant_create_collection, requests in H.
    apply bind_inv_ok in H. destruct H as (r & s2 & Hr & H).
    apply call_inv_ok in Hr. destruct Hr as (w & Hw & ->).
    apply bind_inv_ok in H. destruct H as (u' & s3 & Hst & H).
    apply raise_for_status_inv_ok in Hst. destruct Hst as [Hst ->].
    inversion H; subst s'. cbn [log world]. split.
    + rewrite !creates_app, creates_print, creates_create, Hc. lia.
    + now exists (world s1), r.
Qed.

(** One call sends at most one create-collection request. *)
Lemma ensure_collection_at_most_one (s : state W) :
  (creates cfg (log (snd (ensure_collection Wd cfg s)))
   <= S (creates cfg (log s)))%nat.
Proof.
  pose proof (collection_names_creates s) as Hc.
  destruct (collection_names Wd cfg s) as [[cols|e|] s1] eqn:Hq;
    try (unfold ensure_collection, bind; rewrite Hq; cbn [snd] in *; lia).
  cbn [snd] in Hc.
  destruct (existsb (eq_str (COLLECTION cfg)) cols) eqn:Hin.
  - rewrite (ensure_collection_listed _ _ _ Hq Hin). cbn [snd log].
    rewrite creates_app, creates_print, Hc. lia.
  - rewrite (ensure_collection_missing _ _ _ Hq Hin).
    unfold qdrant_create_collection, requests, bind, call.
    destruct (send Wd (create_collection_request cfg) (world s1))
      as [[e|r] w]; cbn [snd log].
    + rewrite creates_app, creates_create, Hc. lia.
    + unfold raise_for_status.
      destruct ((400 <=? status_code r) && (status_code r <? 600));
        unfold raise, ret, print; cbn [snd log world];
        rewrite ?creates_app, ?creates_print, creates_create, Hc; lia.
Qed.

(** C7: when the collections query already names the collection,
    [ensure_collection] sends no create-collection request and only
    prints that the collection exists; and against a service that keeps
    what it accepted, two calls in a row send at most one create request
    between them. *)
Theorem ensure_collection_twice :
  keeps_created Wd cfg ->
  (forall (s s1 : state W) cols,
     collection_names Wd cfg s = (Ok cols, s1) ->
     existsb (eq_str (COLLECTION cfg)) cols = true ->
     ensure_collection Wd cfg s
     = (Ok tt, mkState (world s1)
                       (log s1 ++ [EvPrint (MsgExists (COLLECTION cfg))]))
     /\ creates cfg (log (snd (ensure_collection Wd cfg s)))
        = creates cfg (log s))
  /\ (forall s : state W,
        (creates cfg
           (log (snd ((ensure_collection Wd cfg ;; ensure_collection Wd cfg)
                        s)))
         <= S (creates cfg (log s)))%nat).
Proof.
  intros Hk. split.
  - intros s s1 cols Hq Hin.
    rewrite (ensure_collection_listed _ _ _ Hq Hin).
    split; [reflexivity|]. cbn [snd log].
    pose proof (collection_names_creates s) as Hc. rewrite Hq in Hc.
    cbn [snd] in Hc. rewrite creates_app, creates_print, Hc. lia.
  - intros s. unfold bind at 1.
    pose proof (ensure_collection_at_most_one s) as H1.
    destruct (ensure_collection Wd cfg s) as [[u|e|] s1] eqn:E1;
      cbn [snd] in *; try exact H1.
    destruct (ensure_collection_ok_inv _ _ _ E1)
      as [Hsame|(Hone & w & resp & Hsend & Hst)].
    + pose proof (ensure_collection_at_most_one s1). lia.
    + destruct (Hk w resp (world s1) (log s1) Hsend Hst)
        as (cols & s2 & Hq & Hin).
      replace (mkState (world s1) (log s1)) with s1 in Hq
        by now destruct s1.
      rewrite (ensure_collection_listed _ _ _ Hq Hin). cbn [snd log].
      pose proof (collection_names_creates s1) as Hc. rewrite Hq in Hc.
      cbn [snd] in Hc. rewrite creates_app, creates_print, Hc. lia.
Qed.

Lemma banner_ok (s : state W) : fst (banner cfg s) = Ok tt.
Proof.
  unfold banner, bind, print. simpl.
  destruct (USE_OPENAI cfg); [reflexivity|].
  destruct (USE_HF cfg); reflexivity.
Qed.

Lemma appends_banner (P : event -> Prop) :
  (forall m, P (EvPrint m)) -> appends P (@banner W cfg).
Proof.
  intros Hp. unfold banner. apply appends_bind; [now apply appends_print|].
  intros _. destruct (USE_OPENAI cfg); [now apply appends_print|].
  destruct (USE_HF cfg); now apply appends_print.
Qed.

(** C8, as the code has it: when the create-collection request is
    answered with a status from 400 to 599, the run ends there with the
    HTTP error of that status, and all it has done is print its banner,
    query the collections and send that request: no file was listed or
    opened, no embedding asked for and no point sent. *)
Theorem main_halts_on_create_error (fuel : nat) (s s1 : state W)
    (cols : list json) (resp : response) (w2 : W) :
  collection_names Wd cfg (snd (banner cfg s)) = (Ok cols, s1) ->
  existsb (eq_str (COLLECTION cfg)) cols = false ->
  send Wd (create_collection_request cfg) (world s1) = (inr resp, w2) ->
  400 <= status_code resp < 600 ->
  main Wd cfg fuel s
  = (Raise (HTTPError (status_code resp)),
     mkState w2 (log s1 ++ [EvHttp (create_collection_request cfg)]))
  /\ exists new,
       log s1 ++ [EvHttp (create_collection_request cfg)] = log s ++ new
       /\ Forall (no_ingestion cfg) new.
Proof.
  intros Hq Hin Hsend Hst. split.
  - unfold main.
    pose proof (banner_ok s) as Hb.
    destruct (banner cfg s) as [r0 s0] eqn:Eb. cbn [fst snd] in *.
    subst r0. rewrite (bind_ok _ _ _ _ _ Eb).
    apply bind_raise.
    rewrite (ensure_collection_missing _ _ _ Hq Hin).
    unfold qdrant_create_collection, requests.
    rewrite (bind_ok _ _ _ _ _ (call_inr _ _ _ _ _ Hsend)).
    apply bind_raise. now apply raise_for_status_error.
  - destruct (appends_banner (no_ingestion cfg) (fun _ => I) s)
      as (n0 & E0 & F0).
    destruct (appends_collection_names Wd cfg (no_ingestion cfg)
                (or_introl eq_refl) (snd (banner cfg s)))
      as (n1 & E1 & F1).
    rewrite Hq in E1. cbn [snd] in E1.
    exists (n0 ++ n1 ++ [EvHttp (create_collection_request cfg)]). split.
    + rewrite E1, E0, <- !app_assoc. reflexivity.
    + repeat (apply Forall_app; split); auto.
      constructor; [|constructor]. right. reflexivity.
Qed.

End Collection.

(** ** The program on concrete inputs *)

Example meta_of_lesson :
  meta_of lesson_path
  = [(str "doc_id", JStr (str "lesson"));
     (str "course_id", JStr (str "courseA"));
     (str "module_id", JStr (str "mod1"))].
Proof. vm_compute. reflexivity. Qed.

Example meta_of_shallow :
  meta_of (str "notes.txt")
  = [(str "doc_id", JStr (str "notes"));
     (str "course_id", JStr (str "general"));
     (str "module_id", JStr (str "intro"))].
Proof. vm_compute. reflexivity. Qed.

(** Two chunks and two vectors give one request with two points. *)
Example ingest_chunks_two_points :
  log (snd (ingest_chunks (mock_world hf_config) hf_config
              (meta_of lesson_path) [str "c1"; str "c2"]
              (start (mock_with (JList [vec01; vec01]) []))))
  = [EvHttp (hf_request hf_config [str "c1"; str "c2"]);
     EvUuid4; EvUuid4;
     EvHttp (upsert_request hf_config
               [point [0%N] vec01 (meta_of lesson_path) (str "c1");
                point [1%N] vec01 (meta_of lesson_path) (str "c2")]);
     EvPrint (MsgIngested 2)].
Proof. vm_compute. reflexivity. Qed.

(** The hosted inference branch on one chunk and the answer [[[0.1, 0.2]]]. *)
Lemma embed_batch_hf_shapes_witness :
  hf_answered (mock_world hf_config) hf_config [str "a"]
    (start (mock_with (JList [vec01]) [])) (JList [vec01])
    (mkState (mock_with (JList [vec01]) [])
             [EvHttp (hf_request hf_config [str "a"])])
  /\ embed_batch (mock_world hf_config) hf_config [str "a"]
       (start (mock_with (JList [vec01]) []))
     = (Ok [vec01],
        mkState (mock_with (JList [vec01]) [])
                [EvHttp (hf_request hf_config [str "a"])]).
Proof.
  assert (H : hf_answered (mock_world hf_config) hf_config [str "a"]
                (start (mock_with (JList [vec01]) [])) (JList [vec01])
                (mkState (mock_with (JList [vec01]) [])
                         [EvHttp (hf_request hf_config [str "a"])])).
  { repeat split.
    exists (ok_response (JList [vec01])), (mock_with (JList [vec01]) []).
    repeat split. }
  split; [exact H|].
  exact (proj1 (embed_batch_hf_shapes _ _ _ _ _ _ H) _ _ eq_refl).
Defined.

(** On the empty list the call returns no embedding and raises
    nothing. *)
Lemma embed_batch_empty_answer_no_error :
  fst (embed_batch (mock_world hf_config) hf_config [str "a"]
         (start (mock_with (JList []) [])))
  = Ok []
  /\ fst (embed_batch (mock_world hf_config) hf_config [str "a"]
            (start (mock_with (JList []) [])))
     <> Raise (RuntimeError (UnexpectedHFResponse (JList []))).
Proof. split; [reflexivity|discriminate]. Qed.

(** The OpenAI branch on two chunks and two entries in [res.data]. *)
Lemma embed_batch_count_witness :
  backend_count (mock_world openai_config) openai_config
    [str "a"; str "b"]
    (mock_with JNull [mkEmbedding vec01; mkEmbedding vec01])
  = Some (len [vec01; vec01]).
Proof.
  apply (embed_batch_count (mock_world openai_config) openai_config
           [str "a"; str "b"]
           (start (mock_with JNull [mkEmbedding vec01; mkEmbedding vec01]))
           (mkState (mock_with JNull [mkEmbedding vec01; mkEmbedding vec01])
                    [EvOpenAI openai_model [str "a"; str "b"]])).
  reflexivity.
Defined.

(** C4 fails on two chunks and a flat answer: the call succeeds with one
    vector. *)
Lemma embed_batch_flat_answer_two_chunks :
  fst (embed_batch (mock_world hf_config) hf_config [str "a"; str "b"]
         (start (mock_with vec01 [])))
  = Ok [vec01]
  /\ len [vec01] <> len [str "a"; str "b"].
Proof. split; [reflexivity|discriminate]. Qed.



(** The answer [[]]: no embedding and no error. *)
Lemma embed_batch_falls_through_witness :
  embed_batch (mock_world hf_config) hf_config [str "a"]
    (start (mock_with (JList []) []))
  = (Ok [],
     mkState (mock_with (JList []) [])
             [EvHttp (hf_request hf_config [str "a"])]).
Proof.
  apply (proj1 (embed_batch_falls_through (mock_world hf_config) hf_config
                  [str "a"] (start (mock_with (JList []) [])) _ (JList [])
                  (conj eq_refl (conj eq_refl (conj eq_refl
                     (ex_intro _ (ok_response (JList []))
                        (ex_intro _ (mock_with (JList []) [])
                           (conj eq_refl (conj eq_refl
                              (conj eq_refl eq_refl)))))))))
           [] eq_refl eq_refl eq_refl).
Defined.


(** The names read off a listing of the mock service. *)
Lemma mapM_names {W : Type} (names : list pystr) (s : state W) :
  mapM (fun c => getitem c (str "name"))
       (map (fun n => JDict [(str "name", JStr n)]) names) s
  = (Ok (map JStr names), s).
Proof.
  induction names as [|n names IH]; [reflexivity|].
  cbn [map mapM]. unfold bind at 1. cbn [getitem dict_get].
  change (str_eqb (str "name") (str "name")) with true. cbv iota.
  unfold ret at 1, bind at 1. now rewrite IH.
Qed.

(** The mock service keeps what it accepted. *)
Lemma mock_keeps_created :
  keeps_created (mock_world hf_config) hf_config.
Proof.
  intros w resp w' l Hsend Hst.
  cbn [mock_world send mock_send create_collection_request rq_method rq_url]
    in Hsend.
  rewrite str_eqb_refl in Hsend. inversion Hsend; subst resp w'. clear Hsend.
  cbn [status_code] in Hst. rewrite Hst.
  eexists. eexists. split.
  - unfold collection_names, qdrant_get_collections, requests.
    unfold bind at 1. unfold bind at 1. unfold bind at 1. unfold call.
    cbn [mock_world send mock_send get_collections_request rq_method world
         log mock_names].
    unfold raise_for_status at 1. cbn [status_code]. simpl andb. cbv iota.
    unfold ret at 1. unfold bind at 1. unfold response_json.
    cbn [json_body]. unfold ret at 1. unfold mock_listing.
    unfold bind at 1. cbn [getitem dict_get].
    change (str_eqb (str "result") (str "result")) with true. cbv iota.
    unfold ret at 1. cbn [getitem dict_get].
    change (str_eqb (str "collections") (str "collections")) with true.
    cbv iota. unfold ret at 1. unfold bind at 1.
    unfold iterate, ret at 1. apply mapM_names.
  - cbn [map existsb eq_str]. now rewrite str_eqb_refl.
Qed.

(** Two calls against the mock service, which has no collection at first. *)
Lemma ensure_collection_twice_witness :
  (creates hf_config
     (log (snd ((ensure_collection (mock_world hf_config) hf_config ;;
                 ensure_collection (mock_world hf_config) hf_config)
                  (start (blank_doc_mock 200)))))
   <= S (creates hf_config (log (start (blank_doc_mock 200)))))%nat.
Proof.
  exact (proj2 (ensure_collection_twice (mock_world hf_config) hf_config
                  mock_keeps_created)
               (start (blank_doc_mock 200))).
Defined.

(** The run against a mock service that answers 500 to the create request. *)
Lemma main_halts_on_create_error_witness :
  main (mock_world hf_config) hf_config 1 (start (blank_doc_mock 500))
  = (Raise (HTTPError 500),
     mkState (blank_doc_mock 500)
             [EvPrint MsgStarting;
              EvPrint (MsgUsingHF (HF_EMBED_MODEL hf_config));
              EvHttp (get_collections_request hf_config);
              EvHttp (create_collection_request hf_config)]).
Proof.
  refine (proj1 (main_halts_on_create_error (mock_world hf_config) hf_config
                   1 (start (blank_doc_mock 500))
                   (mkState (blank_doc_mock 500)
                      [EvPrint MsgStarting;
                       EvPrint (MsgUsingHF (HF_EMBED_MODEL hf_config));
                       EvHttp (get_collections_request hf_config)])
                   [] (mkResponse 500 (Some (JDict [])))
                   (blank_doc_mock 500) _ _ _ _)).
  - reflexivity.
  - reflexivity.
  - reflexivity.
  - simpl. lia.
Defined.

(** C8 fails on a status that is neither 2xx nor an error for
    [raise_for_status]: answered 304 to its create-collection request,
    the run goes on, opens the document and ends well. *)
Lemma main_goes_on_after_304 :
  mock_create_status (blank_doc_mock 304) = 304
  /\ fst (main (mock_world hf_config) hf_config 1
            (start (blank_doc_mock 304)))
     = Ok tt
  /\ log (snd (main (mock_world hf_config) hf_config 1
                 (start (blank_doc_mock 304))))
     = [EvPrint MsgStarting;
        EvPrint (MsgUsingHF (HF_EMBED_MODEL hf_config));
        EvHttp (get_collections_request hf_config);
        EvHttp (create_collection_request hf_config);
        EvPrint (MsgCreated (COLLECTION hf_config));
        EvGlob glob_pattern;
        EvPrint (MsgIngesting lesson_path);
        EvOpen lesson_path;
        EvHttp (hf_request hf_config []);
        EvHttp (upsert_request hf_config []);
        EvPrint (MsgIngested 0);
        EvPrint MsgDone].
Proof. repeat split. Qed.

(** * Further properties *)

(** ** The chunking loop, for all parameters *)

Lemma slice_Z {A : Type} (l : list A) (i j : Z) :
  0 <= i <= j -> j <= len l ->
  slice l i j = firstn (Z.to_nat (j - i)) (skipn (Z.to_nat i) l).
Proof.
  intros Hi Hj. unfold len in Hj.
  rewrite <- (Z2Nat.id i), <- (Z2Nat.id j) at 1 by lia.
  rewrite slice_firstn_skipn by lia.
  f_equal. lia.
Qed.

Lemma slice_len {A : Type} (l : list A) (i j : Z) :
  0 <= i <= j -> j <= len l -> len (slice l i j) = j - i.
Proof.
  intros Hi Hj. rewrite slice_Z by assumption.
  unfold len in *. rewrite length_firstn, length_skipn. lia.
Qed.

Lemma firstn_slice {A : Type} (l : list A) (i j : Z) :
  0 <= i <= j -> j <= len l ->
  firstn (Z.to_nat i) l ++ slice l i j = firstn (Z.to_nat j) l.
Proof.
  intros Hi Hj. rewrite slice_Z by assumption. unfold len in Hj.
  rewrite <- (firstn_skipn (Z.to_nat i) l) at 3.
  rewrite firstn_app, length_firstn, firstn_firstn.
  replace (Nat.min (Z.to_nat j) (Z.to_nat i)) with (Z.to_nat i) by lia.
  do 2 f_equal. lia.
Qed.

Section ChunkLoopMore.

Variable text : pystr.
Variables max_chars overlap : Z.

(** When the window is not longer than the overlap the start stays at 0. *)
Lemma chunk_loop_stuck_at_zero (fuel : nat) :
  forall s, max_chars <= overlap -> loop_i s = 0 -> 0 < len text ->
            chunk_loop fuel text max_chars overlap s = None.
Proof.
  induction fuel as [|fuel IH]; intros s Hm Hi Hn; simpl; [reflexivity|].
  unfold loop_test. rewrite Hi.
  destruct (Z.ltb_spec 0 (len text)) as [_|]; [|lia].
  apply IH; try assumption. rewrite loop_body_i, Hi. lia.
Qed.

(** With an overlap that is not positive and below the window length,
    every iteration moves the start forward. *)
Lemma chunk_loop_exits_forward (k : nat) :
  forall s, overlap <= 0 -> overlap < max_chars -> 0 <= loop_i s ->
            len text - loop_i s <= Z.of_nat k ->
            exists chunks,
              chunk_loop (S k) text max_chars overlap s = Some chunks.
Proof.
  induction k as [|k IH]; intros s Ho Hm Hi Hk.
  - simpl. unfold loop_test.
    destruct (Z.ltb_spec (loop_i s) (len text)); [lia|].
    now exists (loop_chunks s).
  - cbn [chunk_loop]. unfold loop_test at 1.
    destruct (Z.ltb_spec (loop_i s) (len text)) as [Hlt|Hge].
    + apply IH; try assumption; rewrite loop_body_i; lia.
    + now exists (loop_chunks s).
Qed.

(** What the loop returns is the list of chunks after some number of
    iterations. *)
Lemma chunk_loop_some (fuel : nat) :
  forall s chunks,
    chunk_loop fuel text max_chars overlap s = Some chunks ->
    exists n, chunks
              = loop_chunks (loop_after n text max_chars overlap s).
Proof.
  induction fuel as [|fuel IH]; intros s chunks; simpl; [discriminate|].
  destruct (loop_test text s).
  - intros H. destruct (IH _ _ H) as (n & Hn). now exists (S n).
  - intros H. inversion H. now exists O.
Qed.

(** The chunks are cut out of the text and none is longer than the
    window. *)
Lemma loop_after_bounded (n : nat) :
  forall s, 0 <= max_chars -> 0 <= loop_i s ->
            Forall (fun c => len c <= max_chars) (loop_chunks s) ->
            Forall (fun c => len c <= max_chars)
                   (loop_chunks (loop_after n text max_chars overlap s)).
Proof.
  induction n as [|n IH]; intros s Hm Hi Hc; [exact Hc|].
  simpl. apply IH; [assumption|rewrite loop_body_i; lia|].
  unfold loop_body. cbn [loop_chunks].
  apply Forall_app. split; [exact Hc|]. constructor; [|constructor].
  pose proof (Zle_0_nat (List.length text)) as Hn. fold (len text) in Hn.
  destruct (Z.le_gt_cases (loop_i s) (len text)) as [Hle|Hgt].
  - rewrite slice_len by lia. lia.
  - unfold slice, slice_bound, len in *.
    destruct (Z.ltb_spec (loop_i s) 0); [lia|].
    replace (Z.min (loop_i s + max_chars) (Z.of_nat (List.length text)))
      with (Z.of_nat (List.length text)) by lia.
    destruct (Z.ltb_spec (Z.of_nat (List.length text)) 0); [lia|].
    rewrite length_firstn. lia.
Qed.

End ChunkLoopMore.

(** X1: whatever the parameters, [chunk_text] returns exactly when the
    normalized text is empty, or the overlap is at most zero and below
    [max_chars]. *)
Theorem chunk_text_returns_general (text : pystr) (max_chars overlap : Z) :
  (exists fuel chunks, chunk_text fuel text max_chars overlap = Some chunks)
  <-> (normalize text = [] \/ (overlap <= 0 /\ overlap < max_chars)).
Proof.
  unfold chunk_text. split.
  - intros (fuel & chunks & H).
    destruct (normalize text) as [|c r] eqn:Hn; [now left|right].
    assert (Hlen : 0 < len (c :: r)) by (unfold len; simpl; lia).
    destruct (Z.lt_ge_cases 0 overlap) as [Hpos|Hle].
    + rewrite chunk_loop_stuck in H; [discriminate|assumption|simpl; lia].
    + split; [assumption|].
      destruct (Z.lt_ge_cases overlap max_chars) as [|Hm]; [assumption|].
      now rewrite chunk_loop_stuck_at_zero in H.
  - intros [Hn|[Ho Hm]].
    + exists 1%nat, []. now rewrite Hn.
    + exists (S (Z.to_nat (len (normalize text)))).
      apply chunk_loop_exits_forward; simpl; lia.
Qed.

(** X2: every chunk that [chunk_text] returns has at most [max_chars]
    characters, for every window length that is not negative. *)
Theorem chunk_text_chunks_bounded (fuel : nat) (text : pystr)
    (max_chars overlap : Z) (chunks : list pystr) :
  0 <= max_chars ->
  chunk_text fuel text max_chars overlap = Some chunks ->
  Forall (fun c => len c <= max_chars) chunks.
Proof.
  intros Hm H. apply chunk_loop_some in H. destruct H as (n & ->).
  apply loop_after_bounded; simpl; auto; lia.
Qed.

(** The same on a text of five characters cut in windows of two. *)
Lemma chunk_text_chunks_bounded_witness :
  Forall (fun c => len c <= 2) [str "ab"; str "cd"; str "e"].
Proof.
  apply (chunk_text_chunks_bounded 4 (str "abcde") 2 0); [lia|reflexivity].
Defined.

Section Partition.

Variable text : pystr.
Variable max_chars : Z.
Hypothesis max_chars_pos : 0 < max_chars.

(** Without overlap the loop cuts the rest of the text into consecutive
    windows: full ones, then what is left. *)
Lemma chunk_loop_partition (k : nat) :
  forall s,
    0 <= loop_i s <= len text ->
    len text - loop_i s <= Z.of_nat k ->
    List.concat (loop_chunks s) = firstn (Z.to_nat (loop_i s)) text ->
    Forall (fun c => len c = max_chars) (loop_chunks s) ->
    exists chunks,
      chunk_loop (S (S k)) text max_chars 0 s = Some chunks
      /\ List.concat chunks = text
      /\ Forall (fun c => 1 <= len c <= max_chars) chunks
      /\ Forall (fun c => len c = max_chars) (removelast chunks).
Proof.
  induction k as [|k IH]; intros s Hi Hk Hcat Hfull.
  - assert (Hend : loop_i s = len text) by lia.
    exists (loop_chunks s). cbn [chunk_loop]. unfold loop_test.
    destruct (Z.ltb_spec (loop_i s) (len text)); [lia|].
    split; [reflexivity|]. split; [|split].
    + rewrite Hcat, Hend. unfold len. rewrite Nat2Z.id. apply firstn_all.
    + eapply Forall_impl; [|exact Hfull]. simpl. intros c Hc. lia.
    + destruct (loop_chunks s) as [|c0 cs] eqn:E using rev_ind;
        [constructor|].
      rewrite removelast_last. apply Forall_app in Hfull. tauto.
  - cbn [chunk_loop]. unfold loop_test at 1.
    destruct (Z.ltb_spec (loop_i s) (len text)) as [Hlt|Hge].
    + set (j := Z.min (loop_i s + max_chars) (len text)).
      assert (Hj : loop_i s < j <= len text) by (unfold j; lia).
      assert (Hbody : loop_body text max_chars 0 s
                      = mkLoop j (loop_chunks s
                                  ++ [slice text (loop_i s) j])).
      { unfold loop_body. fold j. rewrite Z.sub_0_r.
        destruct (Z.ltb_spec j 0); [lia|reflexivity]. }
      rewrite Hbody.
      assert (Hcat' : List.concat (loop_chunks s ++ [slice text (loop_i s) j])
                      = firstn (Z.to_nat j) text).
      { rewrite concat_app, Hcat. simpl. rewrite app_nil_r.
        apply firstn_slice; lia. }
      destruct (Z.eq_dec j (len text)) as [Hlast|Hmore].
      * exists (loop_chunks s ++ [slice text (loop_i s) j]).
        cbn [chunk_loop]. unfold loop_test. cbn [loop_i loop_chunks].
        destruct (Z.ltb_spec j (len text)); [lia|].
        split; [reflexivity|]. split; [|split].
        -- rewrite Hcat', Hlast. unfold len. rewrite Nat2Z.id.
           apply firstn_all.
        -- apply Forall_app. split.
           ++ eapply Forall_impl; [|exact Hfull]. simpl. intros c Hc. lia.
           ++ constructor; [|constructor]. rewrite slice_len by lia.
              unfold j. lia.
        -- now rewrite removelast_last.
      * apply IH; cbn [loop_i loop_chunks]; try lia; [exact Hcat'|].
        apply Forall_app. split; [exact Hfull|].
        constructor; [|constructor]. rewrite slice_len by lia.
        unfold j. lia.
    + exists (loop_chunks s). split; [reflexivity|].
      assert (Hend : loop_i s = len text) by lia.
      split; [|split].
      * rewrite Hcat, Hend. unfold len. rewrite Nat2Z.id. apply firstn_all.
      * eapply Forall_impl; [|exact Hfull]. simpl. intros c Hc. lia.
      * destruct (loop_chunks s) as [|c0 cs] eqn:E using rev_ind;
          [constructor|].
        rewrite removelast_last. apply Forall_app in Hfull. tauto.
Qed.

End Partition.

(** X3: without overlap and with a positive window length, [chunk_text]
    returns chunks that, put end to end, are the normalized text; none is
    empty or longer than [max_chars], and all but the last have exactly
    [max_chars] characters. *)
Theorem chunk_text_partition (text : pystr) (max_chars : Z) :
  0 < max_chars ->
  exists fuel chunks,
    chunk_text fuel text max_chars 0 = Some chunks
    /\ List.concat chunks = normalize text
    /\ Forall (fun c => 1 <= len c <= max_chars) chunks
    /\ Forall (fun c => len c = max_chars) (removelast chunks).
Proof.
  intros Hm. exists (S (S (Z.to_nat (len (normalize text))))).
  unfold chunk_text.
  pose proof (Zle_0_nat (List.length (normalize text))) as Hn.
  fold (len (normalize text)) in Hn.
  apply chunk_loop_partition; cbn [loop_i loop_chunks]; try assumption.
  - lia.
  - lia.
  - reflexivity.
  - constructor.
Qed.

(** The same on ["  a   b c "] with windows of two characters. *)
Lemma chunk_text_partition_witness :
  exists fuel chunks,
    chunk_text fuel (str "  a   b c ") 2 0 = Some chunks
    /\ List.concat chunks = normalize (str "  a   b c ")
    /\ Forall (fun c => 1 <= len c <= 2) chunks
    /\ Forall (fun c => len c = 2) (removelast chunks).
Proof. apply (chunk_text_partition (str "  a   b c ") 2). lia. Defined.

(** ** Normalization *)

Lemma tidy_weaken (s : pystr) : tidy true s = true -> tidy false s = true.
Proof.
  destruct s as [|c r]; simpl; [reflexivity|].
  destruct (isspace c); [|tauto].
  rewrite andb_false_r. discriminate.
Qed.

Lemma tidy_sub_ws (s : pystr) : forall b, tidy b (sub_ws b s) = true.
Proof.
  induction s as [|c r IH]; intros b; simpl; [reflexivity|].
  destruct (isspace c) eqn:Ec.
  - destruct b; [apply IH|]. simpl. now rewrite IH.
  - simpl. rewrite Ec. apply IH.
Qed.

Lemma tidy_lstrip (s : pystr) :
  tidy false s = true -> tidy true (lstrip s) = true.
Proof.
  induction s as [|c r IH]; simpl; [reflexivity|].
  destruct (isspace c) eqn:Ec.
  - rewrite andb_true_iff. intros [_ H]. apply IH. now apply tidy_weaken.
  - intros H. simpl. now rewrite Ec.
Qed.

Lemma lstrip_app (a b : pystr) :
  lstrip (a ++ b) = match lstrip a with
                    | [] => lstrip b
                    | v => v ++ b
                    end.
Proof.
  induction a as [|c r IH]; simpl; [now destruct (lstrip b)|].
  destruct (isspace c); [exact IH|reflexivity].
Qed.

(** [rstrip] from the left: a character stays when something stays after
    it, or when it is not white space. *)
Lemma rstrip_cons (c : char) (r : pystr) :
  rstrip (c :: r) = match rstrip r with
                    | [] => if isspace c then [] else [c]
                    | v => c :: v
                    end.
Proof.
  unfold rstrip. simpl rev. rewrite lstrip_app.
  destruct (lstrip (rev r)) as [|x v] eqn:E.
  - simpl. now destruct (isspace c).
  - rewrite rev_app_distr. simpl.
    destruct (rev v ++ [x]) eqn:E'; [|reflexivity].
    now destruct (rev v).
Qed.

Lemma clean_rstrip (s : pystr) :
  forall b, tidy b s = true -> rstrip s <> [] ->
            clean_from b (rstrip s) = true.
Proof.
  induction s as [|c r IH]; intros b Ht Hne; [now elim Hne|].
  rewrite rstrip_cons in Hne |- *. simpl in Ht.
  destruct (rstrip r) as [|x v] eqn:E.
  - destruct (isspace c) eqn:Ec; [now elim Hne|]. simpl. now rewrite Ec.
  - cbn [clean_from]. destruct (isspace c).
    + rewrite !andb_true_iff in Ht |- *. destruct Ht as [[H1 H2] H3].
      repeat split; try assumption. now apply IH.
    + now apply IH.
Qed.

Lemma clean_normalize (text : pystr) : clean (normalize text) = true.
Proof.
  unfold normalize, strip.
  destruct (rstrip (lstrip (sub_ws false text))) as [|c r] eqn:E;
    [reflexivity|].
  unfold clean. rewrite <- E. apply clean_rstrip; [|congruence].
  apply tidy_lstrip, tidy_sub_ws.
Qed.

(** X4: the normalized text is in normal form: its only white space is
    single spaces between other characters. *)
Theorem normalize_clean (text : pystr) : clean (normalize text) = true.
Proof. apply clean_normalize. Qed.

Lemma sub_ws_clean (s : pystr) :
  forall p q, clean_from p s = true -> (q = true -> p = true) ->
              sub_ws q s = s.
Proof.
  induction s as [|c r IH]; intros p q Hc Hq; simpl in *; [reflexivity|].
  destruct (isspace c).
  - rewrite !andb_true_iff in Hc. destruct Hc as [[H1 H2] H3].
    apply N.eqb_eq in H1. subst c.
    destruct q; [rewrite Hq in H2 by reflexivity; discriminate|].
    f_equal. now apply (IH true true).
  - f_equal. now apply (IH false false).
Qed.

Lemma rstrip_clean (s : pystr) :
  forall p, clean_from p s = true -> s <> [] -> rstrip s = s.
Proof.
  induction s as [|c r IH]; intros p Hc Hne; [now elim Hne|].
  rewrite rstrip_cons. simpl in Hc.
  destruct r as [|x v].
  - destruct (isspace c); [|reflexivity].
    simpl in Hc. rewrite andb_false_r in Hc. discriminate.
  - assert (Hr : rstrip (x :: v) = x :: v).
    { destruct (isspace c).
      - rewrite !andb_true_iff in Hc. apply (IH true); [tauto|discriminate].
      - apply (IH false); [assumption|discriminate]. }
    now rewrite Hr.
Qed.

(** A text in normal form is left as it is. *)
Lemma normalize_of_clean (s : pystr) : clean s = true -> normalize s = s.
Proof.
  destruct s as [|c r]; [reflexivity|]. unfold clean. intros Hc.
  unfold normalize, strip.
  rewrite (sub_ws_clean _ true false Hc) by discriminate.
  assert (Hl : lstrip (c :: r) = c :: r).
  { simpl in *. destruct (isspace c); [|reflexivity].
    rewrite andb_false_r in Hc. discriminate. }
  rewrite Hl. apply (rstrip_clean _ true Hc). discriminate.
Qed.

(** X5: normalizing twice is normalizing once, so that chunking a text
    and chunking its normalized form give the same result. *)
Theorem normalize_idempotent (fuel : nat) (text : pystr)
    (max_chars overlap : Z) :
  normalize (normalize text) = normalize text
  /\ chunk_text fuel (normalize text) max_chars overlap
     = chunk_text fuel text max_chars overlap.
Proof.
  assert (H : normalize (normalize text) = normalize text)
    by apply normalize_of_clean, clean_normalize.
  split; [exact H|]. unfold chunk_text. now rewrite H.
Qed.

Lemma nonspace_sub_ws (s : pystr) :
  forall b, nonspace (sub_ws b s) = nonspace s.
Proof.
  unfold nonspace.
  induction s as [|c r IH]; intros b; simpl; [reflexivity|].
  destruct (isspace c) eqn:Ec; simpl.
  - destruct b; simpl; apply IH.
  - rewrite Ec. simpl. f_equal. apply IH.
Qed.

Lemma nonspace_lstrip (s : pystr) : nonspace (lstrip s) = nonspace s.
Proof.
  unfold nonspace. induction s as [|c r IH]; simpl; [reflexivity|].
  destruct (isspace c) eqn:Ec; simpl; [exact IH|].
  now rewrite Ec.
Qed.

Lemma nonspace_rstrip (s : pystr) : nonspace (rstrip s) = nonspace s.
Proof.
  unfold rstrip. unfold nonspace at 1. rewrite filter_rev.
  fold (nonspace (lstrip (rev s))). rewrite nonspace_lstrip.
  unfold nonspace. now rewrite filter_rev, rev_involutive.
Qed.

Lemma nonspace_normalize (text : pystr) :
  nonspace (normalize text) = nonspace text.
Proof.
  unfold normalize, strip.
  now rewrite nonspace_rstrip, nonspace_lstrip, nonspace_sub_ws.
Qed.

Lemma normalize_nil_iff (text : pystr) :
  normalize text = [] <-> nonspace text = [].
Proof.
  split.
  - intros E. now rewrite <- nonspace_normalize, E.
  - intros E. rewrite <- nonspace_normalize in E.
    pose proof (clean_normalize text) as Hc.
    destruct (normalize text) as [|c r]; [reflexivity|].
    unfold clean in Hc. unfold nonspace in E. simpl in *.
    destruct (isspace c); [|discriminate].
    rewrite andb_false_r in Hc. discriminate.
Qed.

(** X6: normalization neither drops, adds, changes nor reorders a
    character that is not white space; and the normalized text is empty
    exactly when the text has no such character. *)
Theorem normalize_keeps_nonspace (text : pystr) :
  nonspace (normalize text) = nonspace text
  /\ (normalize text = [] <-> nonspace text = []).
Proof.
  split; [apply nonspace_normalize|apply normalize_nil_iff].
Qed.

(** ** The embedding provider: failures and calls *)

Lemma call_inl {W A : Type} (ev : event) (h : W -> (exn + A) * W) s e w :
  h (world s) = (inl e, w) ->
  call ev h s = (Raise e, mkState w (log s ++ [ev])).
Proof. unfold call. now intros ->. Qed.

Section EmbeddingMore.

Context {W : Type}.
Variable Wd : World W.
Variable cfg : config.

(** X7: with no known provider selected, or with the hosted inference
    provider and no token, [embed_batch] raises its configuration error
    at once: nothing is sent and the state is as before. *)
Theorem embed_batch_configuration_errors (texts : list pystr)
    (s : state W) :
  USE_OPENAI cfg = false ->
  USE_HF cfg = false \/ truthy (HF_API_TOKEN cfg) = false ->
  embed_batch Wd cfg texts s
  = (Raise (RuntimeError (if USE_HF cfg then MissingHFToken
                          else UnknownProvider)), s).
Proof.
  intros Ho H. unfold embed_batch. rewrite Ho.
  destruct (USE_HF cfg); [|reflexivity].
  destruct H as [H|H]; [discriminate|]. now rewrite H.
Qed.

(** X8: in the hosted inference branch a failure of the request is the
    failure of the call, in this order: an exception of the transport;
    a status from 400 to 599, whatever the body; a body that is not
    JSON. *)
Theorem embed_batch_hf_failures (texts : list pystr) (s : state W) :
  USE_OPENAI cfg = false -> USE_HF cfg = true ->
  truthy (HF_API_TOKEN cfg) = true ->
  (forall e w',
     send Wd (hf_request cfg texts) (world s) = (inl e, w') ->
     embed_batch Wd cfg texts s
     = (Raise e, mkState w' (log s ++ [EvHttp (hf_request cfg texts)])))
  /\ (forall r w',
        send Wd (hf_request cfg texts) (world s) = (inr r, w') ->
        400 <= status_code r < 600 ->
        embed_batch Wd cfg texts s
        = (Raise (HTTPError (status_code r)),
           mkState w' (log s ++ [EvHttp (hf_request cfg texts)])))
  /\ (forall r w',
        send Wd (hf_request cfg texts) (world s) = (inr r, w') ->
        (400 <=? status_code r) && (status_code r <? 600) = false ->
        json_body r = None ->
        embed_batch Wd cfg texts s
        = (Raise JSONDecodeError,
           mkState w' (log s ++ [EvHttp (hf_request cfg texts)]))).
Proof.
  intros Ho Hh Ht. unfold embed_batch. rewrite Ho, Hh, Ht.
  change (negb true) with false. cbv iota. unfold requests.
  split; [|split].
  - intros e w' Hs. apply bind_raise. now apply call_inl.
  - intros r w' Hs Hst.
    rewrite (bind_ok _ _ _ _ _ (call_inr _ _ _ _ _ Hs)).
    apply bind_raise. now apply raise_for_status_error.
  - intros r w' Hs Hst Hj.
    rewrite (bind_ok _ _ _ _ _ (call_inr _ _ _ _ _ Hs)).
    rewrite (bind_ok _ _ _ _ _ (raise_for_status_ok _ _ Hst)).
    apply bind_raise. unfold response_json. now rewrite Hj.
Qed.

(** X9: whatever the configuration, the world and the batch,
    [embed_batch] calls the backend at most once, and with the whole
    batch: the log grows by nothing, by the one call of the OpenAI
    client, or by the one request to the hosted inference endpoint. *)
Theorem embed_batch_one_call (texts : list pystr) (s : state W) :
  log (snd (embed_batch Wd cfg texts s)) = log s
  \/ log (snd (embed_batch Wd cfg texts s))
     = log s ++ [EvOpenAI openai_model texts]
  \/ log (snd (embed_batch Wd cfg texts s))
     = log s ++ [EvHttp (hf_request cfg texts)].
Proof.
  unfold embed_batch.
  destruct (USE_OPENAI cfg).
  - right. left. unfold bind, call.
    destruct (embeddings_create Wd openai_model texts (world s))
      as [[e|d] w]; reflexivity.
  - destruct (USE_HF cfg); [|now left].
    destruct (negb (truthy (HF_API_TOKEN cfg))); [now left|].
    right. right. unfold bind, requests, call.
    destruct (send Wd (hf_request cfg texts) (world s)) as [[e|r] w];
      [reflexivity|].
    unfold raise_for_status.
    destruct ((400 <=? status_code r) && (status_code r <? 600));
      [reflexivity|].
    unfold ret at 1, response_json.
    destruct (json_body r) as [data|]; [|reflexivity].
    unfold ret at 1. destruct data; try reflexivity.
    destruct ((0 <? len l) && first_is is_list l); [reflexivity|].
    destruct ((0 <? len l) && first_is is_number l); reflexivity.
Qed.

(** X10: only the first element of the answer is looked at: a list whose
    first element is neither a list nor a number gives no embedding and
    no error. *)
Theorem embed_batch_unrecognised_list (texts : list pystr) (s s' : state W)
    (x : json) (rest : list json) :
  hf_answered Wd cfg texts s (JList (x :: rest)) s' ->
  is_list x = false -> is_number x = false ->
  embed_batch Wd cfg texts s = (Ok [], s').
Proof.
  intros H Hl Hn. rewrite (embed_batch_hf _ _ _ _ _ _ H).
  simpl first_is. now rewrite Hl, Hn, !andb_false_r.
Qed.

End EmbeddingMore.

(** An unknown provider, then the hosted one without a token. *)
Lemma embed_batch_configuration_errors_witness :
  embed_batch (mock_world other_config) other_config [str "a"]
    (start (mock_with JNull []))
  = (Raise (RuntimeError UnknownProvider), start (mock_with JNull []))
  /\ embed_batch (mock_world no_token_config) no_token_config [str "a"]
       (start (mock_with JNull []))
     = (Raise (RuntimeError MissingHFToken), start (mock_with JNull [])).
Proof.
  split.
  - apply (embed_batch_configuration_errors (mock_world other_config)
             other_config); [reflexivity|left; reflexivity].
  - apply (embed_batch_configuration_errors (mock_world no_token_config)
             no_token_config); [reflexivity|right; reflexivity].
Defined.

(** The endpoint of the mock answers 500. *)
Lemma embed_batch_hf_failures_witness :
  embed_batch (mock_world hf_config) hf_config [str "a"]
    (start (mock_answering (mkResponse 500 (Some vec01))))
  = (Raise (HTTPError 500),
     mkState (mock_answering (mkResponse 500 (Some vec01)))
             [EvHttp (hf_request hf_config [str "a"])]).
Proof.
  refine (proj1 (proj2 (embed_batch_hf_failures (mock_world hf_config)
                          hf_config [str "a"]
                          (start (mock_answering
                                    (mkResponse 500 (Some vec01))))
                          eq_refl eq_refl eq_refl))
            (mkResponse 500 (Some vec01)) _ eq_refl _).
  simpl. lia.
Defined.

(** The answer [["x"]]. *)
Lemma embed_batch_unrecognised_list_witness :
  embed_batch (mock_world hf_config) hf_config [str "a"]
    (start (mock_with (JList [JStr (str "x")]) []))
  = (Ok [],
     mkState (mock_with (JList [JStr (str "x")]) [])
             [EvHttp (hf_request hf_config [str "a"])]).
Proof.
  apply (embed_batch_unrecognised_list (mock_world hf_config) hf_config
           [str "a"] _ _ (JStr (str "x")) []); try reflexivity.
  repeat split.
  exists (ok_response (JList [JStr (str "x")])),
         (mock_with (JList [JStr (str "x")]) []).
  repeat split.
Defined.

(** ** The collections query and the upsert: edges *)

Section CollectionMore.

Context {W : Type}.
Variable Wd : World W.
Variable cfg : config.

Lemma mapM_getitem_name (items names : list json) (s : state W) :
  Forall2 (fun item name =>
             exists d, item = JDict d
                       /\ dict_get (str "name") d = Some name)
          items names ->
  mapM (fun c => getitem c (str "name")) items s = (Ok names, s).
Proof.
  induction 1 as [|item name items names (d & -> & Hd) _ IH];
    [reflexivity|].
  cbn [mapM]. unfold bind at 1. cbn [getitem]. rewrite Hd.
  unfold ret at 1, bind at 1. now rewrite IH.
Qed.

(** X11: a listing of the shape
    [{"result": {"collections": [{"name": n1, ...}, ...]}}], answered
    without an error status, is read as the names [n1, ...] in order,
    whatever else the dicts hold. *)
Theorem collection_names_decodes (s : state W) (r : response) (w1 : W)
    (d rd : dict) (items names : list json) :
  send Wd (get_collections_request cfg) (world s) = (inr r, w1) ->
  (400 <=? status_code r) && (status_code r <? 600) = false ->
  json_body r = Some (JDict d) ->
  dict_get (str "result") d = Some (JDict rd) ->
  dict_get (str "collections") rd = Some (JList items) ->
  Forall2 (fun item name =>
             exists dd, item = JDict dd
                        /\ dict_get (str "name") dd = Some name)
          items names ->
  collection_names Wd cfg s
  = (Ok names,
     mkState w1 (log s ++ [EvHttp (get_collections_request cfg)])).
Proof.
  intros Hs Hst Hj Hr Hc Hn.
  unfold collection_names, qdrant_get_collections, requests.
  unfold bind at 1. unfold bind at 1.
  rewrite (call_inr _ _ _ _ _ Hs).
  rewrite (bind_ok _ _ _ _ _ (raise_for_status_ok _ _ Hst)).
  unfold response_json. rewrite Hj. unfold ret at 1, bind at 1.
  cbn [getitem]. rewrite Hr. unfold ret at 1, bind at 1.
  cbn [getitem]. rewrite Hc. unfold ret at 1.
  unfold bind at 1, iterate, ret at 1.
  now apply mapM_getitem_name.
Qed.

(** X12: when the collections query fails - with an error status, with a
    body that is not JSON, or with a document that has no ["result"] -
    [ensure_collection] fails the same way after that one request: no
    create-collection request is sent. *)
Theorem ensure_collection_bad_listing (s : state W) (r : response)
    (w1 : W) :
  send Wd (get_collections_request cfg) (world s) = (inr r, w1) ->
  (400 <= status_code r < 600 ->
   ensure_collection Wd cfg s
   = (Raise (HTTPError (status_code r)),
      mkState w1 (log s ++ [EvHttp (get_collections_request cfg)])))
  /\ ((400 <=? status_code r) && (status_code r <? 600) = false ->
      json_body r = None ->
      ensure_collection Wd cfg s
      = (Raise JSONDecodeError,
         mkState w1 (log s ++ [EvHttp (get_collections_request cfg)])))
  /\ (forall d,
        (400 <=? status_code r) && (status_code r <? 600) = false ->
        json_body r = Some (JDict d) ->
        dict_get (str "result") d = None ->
        ensure_collection Wd cfg s
        = (Raise (KeyError (str "result")),
           mkState w1 (log s ++ [EvHttp (get_collections_request cfg)]))).
Proof.
  intros Hs.
  unfold ensure_collection, collection_names, qdrant_get_collections,
    requests.
  split; [|split].
  - intros Hst. do 2 apply bind_raise.
    rewrite (bind_ok _ _ _ _ _ (call_inr _ _ _ _ _ Hs)).
    apply bind_raise. now apply raise_for_status_error.
  - intros Hst Hj. do 2 apply bind_raise.
    rewrite (bind_ok _ _ _ _ _ (call_inr _ _ _ _ _ Hs)).
    rewrite (bind_ok _ _ _ _ _ (raise_for_status_ok _ _ Hst)).
    apply bind_raise. unfold response_json. now rewrite Hj.
  - intros d Hst Hj Hr. do 2 apply bind_raise.
    rewrite (bind_ok _ _ _ _ _ (call_inr _ _ _ _ _ Hs)).
    rewrite (bind_ok _ _ _ _ _ (raise_for_status_ok _ _ Hst)).
    unfold response_json. rewrite Hj. unfold ret at 1, bind at 1.
    apply bind_raise. cbn [getitem]. now rewrite Hr.
Qed.

(** X13: one call of [ensure_collection] sends at most one
    create-collection request, whatever the world answers; and when the
    collections query succeeds it sends none if the name is listed and
    exactly one if it is not, accepted or not. *)
Theorem ensure_collection_create_count (s : state W) :
  (creates cfg (log (snd (ensure_collection Wd cfg s)))
   <= S (creates cfg (log s)))%nat
  /\ forall cols s1,
       collection_names Wd cfg s = (Ok cols, s1) ->
       creates cfg (log (snd (ensure_collection Wd cfg s)))
       = (creates cfg (log s)
          + (if existsb (eq_str (COLLECTION cfg)) cols then 0 else 1))%nat.
Proof.
  split; [apply ensure_collection_at_most_one|].
  intros cols s1 Hq.
  pose proof (collection_names_creates Wd cfg s) as Hc.
  rewrite Hq in Hc. cbn [snd] in Hc.
  destruct (existsb (eq_str (COLLECTION cfg)) cols) eqn:Hin.
  - rewrite (ensure_collection_listed _ _ _ _ _ Hq Hin). cbn [snd log].
    rewrite creates_app, creates_print, Hc. lia.
  - rewrite (ensure_collection_missing _ _ _ _ _ Hq Hin).
    unfold qdrant_create_collection, requests, bind, call.
    destruct (send Wd (create_collection_request cfg) (world s1))
      as [[e|r] w]; cbn [snd log].
    + rewrite creates_app, creates_create, Hc. lia.
    + unfold raise_for_status.
      destruct ((400 <=? status_code r) && (status_code r <? 600));
        unfold raise, ret, print; cbn [snd log world];
        rewrite ?creates_app, ?creates_print, creates_create, Hc; lia.
Qed.

(** X14: with no chunk or no vector [qdrant_upsert] draws no identifier
    and still sends its request, with an empty list of points; the call
    ends as that request is answered. *)
Theorem qdrant_upsert_nothing_to_send (chunks : list pystr)
    (vectors : list json) (meta : dict) (s : state W) :
  chunks = [] \/ vectors = [] ->
  log (snd (qdrant_upsert Wd cfg chunks vectors meta s))
  = log s ++ [EvHttp (upsert_request cfg [])]
  /\ fst (qdrant_upsert Wd cfg chunks vectors meta s)
     = match fst (send Wd (upsert_request cfg []) (world s)) with
       | inl e => Raise e
       | inr r => if (400 <=? status_code r) && (status_code r <? 600)
                  then Raise (HTTPError (status_code r))
                  else Ok tt
       end.
Proof.
  intros H. rewrite qdrant_upsert_run.
  assert (Hn : Nat.min (List.length chunks) (List.length vectors) = O)
    by (destruct H as [-> | ->]; simpl; lia).
  rewrite Hn. cbn [draw fst snd repeat points_of].
  rewrite app_nil_r.
  unfold bind, requests, call. cbn [world log].
  destruct (send Wd (upsert_request cfg []) (world s)) as [[e|r] w2];
    cbn [fst snd log]; [split; reflexivity|].
  unfold raise_for_status.
  destruct ((400 <=? status_code r) && (status_code r <? 600));
    split; reflexivity.
Qed.

End CollectionMore.

(** A listing of the mock service with two collections. *)
Lemma collection_names_decodes_witness :
  collection_names (mock_world hf_config) hf_config
    (start (mkMock [str "a"; str "b"] 200 (ok_response JNull) [] [] 0))
  = (Ok [JStr (str "a"); JStr (str "b")],
     mkState (mkMock [str "a"; str "b"] 200 (ok_response JNull) [] [] 0)
             [EvHttp (get_collections_request hf_config)]).
Proof.
  eapply (collection_names_decodes (mock_world hf_config) hf_config);
    try reflexivity.
  repeat constructor; eexists; split; reflexivity.
Defined.

(** The service is down: 503 and a body that is not JSON. *)
Lemma ensure_collection_bad_listing_witness :
  ensure_collection down_world hf_config (start tt)
  = (Raise (HTTPError 503),
     mkState tt [EvHttp (get_collections_request hf_config)]).
Proof.
  refine (proj1 (ensure_collection_bad_listing down_world hf_config
                   (start tt) (mkResponse 503 None) tt eq_refl) _).
  simpl. lia.
Defined.

(** Three chunks and no vector. *)
Lemma qdrant_upsert_nothing_to_send_witness :
  log (snd (qdrant_upsert (mock_world hf_config) hf_config
              [str "c1"; str "c2"; str "c3"] [] []
              (start (mock_with JNull []))))
  = [EvHttp (upsert_request hf_config [])].
Proof.
  apply (qdrant_upsert_nothing_to_send (mock_world hf_config) hf_config
           [str "c1"; str "c2"; str "c3"] [] []
           (start (mock_with JNull []))).
  now right.
Defined.

(** ** Ingestion of one document: how it ends *)

Section IngestionMore.

Context {W : Type}.
Variable Wd : World W.
Variable cfg : config.

(** X15: on a readable document with at least one character that is not
    white space, [ingest_doc] never comes to an end, whatever the fuel:
    all it does is print the path and read the file; nothing is embedded
    and nothing is sent to the index. *)
Theorem ingest_doc_hangs_on_text (path text : pystr) (s : state W)
    (w : W) :
  read_text Wd path (world s) = (inr text, w) ->
  nonspace text <> [] ->
  forall fuel,
    ingest_doc Wd cfg fuel path s
    = (Diverge,
       mkState w (log s ++ [EvPrint (MsgIngesting path); EvOpen path])).
Proof.
  intros Hr Hn fuel. rewrite ingest_doc_read, Hr.
  assert (Hc : chunk_text fuel text default_max_chars default_overlap
               = None).
  { unfold chunk_text. apply chunk_loop_stuck; [reflexivity|].
    cbn [loop_i].
    destruct (normalize text) as [|c r] eqn:E.
    - apply normalize_nil_iff in E. contradiction.
    - unfold len. simpl. lia. }
  now rewrite Hc.
Qed.

(** X16: when the file cannot be read, [ingest_doc] raises the error of
    the read after printing the path: nothing is embedded and nothing is
    sent to the index. *)
Theorem ingest_doc_unreadable (fuel : nat) (path : pystr) (s : state W)
    (e : exn) (w : W) :
  read_text Wd path (world s) = (inl e, w) ->
  ingest_doc Wd cfg fuel path s
  = (Raise e,
     mkState w (log s ++ [EvPrint (MsgIngesting path); EvOpen path])).
Proof. intros Hr. now rewrite ingest_doc_read, Hr. Qed.

(** X17: a document with nothing but white space is not skipped: with
    any fuel but zero its ingestion goes on with an empty list of
    chunks, so that the provider is still called, with an empty batch. *)
Theorem ingest_doc_blank (fuel : nat) (path text : pystr) (s : state W)
    (w : W) :
  read_text Wd path (world s) = (inr text, w) ->
  nonspace text = [] ->
  ingest_doc Wd cfg (S fuel) path s
  = ingest_chunks Wd cfg (meta_of path) []
      (mkState w (log s ++ [EvPrint (MsgIngesting path); EvOpen path]))
  /\ exists new,
       log (snd (embed_batch Wd cfg []
                   (mkState w (log s ++ [EvPrint (MsgIngesting path);
                                         EvOpen path]))))
       = (log s ++ [EvPrint (MsgIngesting path); EvOpen path]) ++ new
       /\ (USE_OPENAI cfg = true -> new = [EvOpenAI openai_model []])
       /\ (USE_OPENAI cfg = false -> USE_HF cfg = true ->
           truthy (HF_API_TOKEN cfg) = true ->
           new = [EvHttp (hf_request cfg [])]).
Proof.
  intros Hr Hn. split.
  - rewrite ingest_doc_read, Hr. apply normalize_nil_iff in Hn.
    unfold chunk_text. now rewrite Hn.
  - set (s0 := mkState w _). unfold embed_batch.
    destruct (USE_OPENAI cfg).
    + exists [EvOpenAI openai_model []]. split; [|split; [reflexivity|]];
        [|discriminate].
      unfold bind, call.
      now destruct (embeddings_create Wd openai_model [] (world s0))
        as [[e|d] w'].
    + destruct (USE_HF cfg).
      * destruct (truthy (HF_API_TOKEN cfg)).
        -- exists [EvHttp (hf_request cfg [])].
           split; [|split; [discriminate|reflexivity]].
           change (negb true) with false. cbv iota.
           unfold bind, requests, call.
           destruct (send Wd (hf_request cfg []) (world s0))
             as [[e|r] w']; [reflexivity|].
           unfold raise_for_status.
           destruct ((400 <=? status_code r) && (status_code r <? 600));
             [reflexivity|].
           unfold ret at 1, response_json.
           destruct (json_body r) as [data|]; [|reflexivity].
           unfold ret at 1. destruct data; try reflexivity.
           destruct ((0 <? len l) && first_is is_list l); [reflexivity|].
           destruct ((0 <? len l) && first_is is_number l); reflexivity.
        -- exists []. split; [now rewrite app_nil_r|].
           split; discriminate.
      * exists []. split; [now rewrite app_nil_r|]. split; discriminate.
Qed.

(** X18: when the embedding succeeds and the upsert is accepted, the
    document's ingestion ends well after drawing one identifier per
    point, sending the points in one request and printing the number of
    chunks; the number printed is the number of chunks even when fewer
    vectors came back and fewer points were sent. *)
Theorem ingest_chunks_trace (meta : dict) (chunks : list pystr)
    (vectors : list json) (s s1 : state W) (r : response) (w2 : W) :
  embed_batch Wd cfg chunks s = (Ok vectors, s1) ->
  send Wd
    (upsert_request cfg
       (points_of
          (fst (draw Wd (Nat.min (List.length chunks) (List.length vectors))
                     (world s1)))
          (combine chunks vectors) meta))
    (snd (draw Wd (Nat.min (List.length chunks) (List.length vectors))
               (world s1)))
  = (inr r, w2) ->
  (400 <=? status_code r) && (status_code r <? 600) = false ->
  ingest_chunks Wd cfg meta chunks s
  = (Ok JNull,
     mkState w2
       (log s1
        ++ repeat EvUuid4
             (Nat.min (List.length chunks) (List.length vectors))
        ++ [EvHttp
              (upsert_request cfg
                 (points_of
                    (fst (draw Wd (Nat.min (List.length chunks)
                                           (List.length vectors))
                               (world s1)))
                    (combine chunks vectors) meta));
            EvPrint (MsgIngested (len chunks))]))
  /\ List.length
       (points_of
          (fst (draw Wd (Nat.min (List.length chunks) (List.length vectors))
                     (world s1)))
          (combine chunks vectors) meta)
     = Nat.min (List.length chunks) (List.length vectors).
Proof.
  intros He Hs Hst. split.
  - unfold ingest_chunks. rewrite (bind_ok _ _ _ _ _ He).
    set (n := Nat.min (List.length chunks) (List.length vectors)) in *.
    set (points := points_of _ _ _) in *.
    assert (Hu : qdrant_upsert Wd cfg chunks vectors meta s1
                 = (Ok tt,
                    mkState w2 ((log s1 ++ repeat EvUuid4 n)
                                ++ [EvHttp (upsert_request cfg points)]))).
    { rewrite qdrant_upsert_run. fold n. fold points. unfold requests.
      rewrite (bind_ok _ _ _ _ _
                 (call_inr _ _ (mkState (snd (draw Wd n (world s1)))
                                        (log s1 ++ repeat EvUuid4 n))
                           _ _ Hs)).
      now apply raise_for_status_ok. }
    rewrite (bind_ok _ _ _ _ _ Hu).
    unfold bind, print, ret. cbn [world log].
    now rewrite <- !app_assoc.
  - rewrite points_of_length; rewrite length_combine; [reflexivity|].
    apply draw_length.
Qed.

End IngestionMore.

(** The document of the mock says "Hello world. ". *)
Lemma ingest_doc_hangs_on_text_witness :
  ingest_doc (mock_world hf_config) hf_config 1000 lesson_path
    (start text_doc_mock)
  = (Diverge,
     mkState text_doc_mock
             [EvPrint (MsgIngesting lesson_path); EvOpen lesson_path]).
Proof.
  apply (ingest_doc_hangs_on_text (mock_world hf_config) hf_config
           lesson_path (str "Hello world. ") (start text_doc_mock)
           text_doc_mock); [reflexivity|discriminate].
Defined.

(** The mock has no file of that name. *)
Lemma ingest_doc_unreadable_witness :
  ingest_doc (mock_world hf_config) hf_config 1 (str "data/missing.txt")
    (start text_doc_mock)
  = (Raise (External (str "FileNotFoundError")),
     mkState text_doc_mock
             [EvPrint (MsgIngesting (str "data/missing.txt"));
              EvOpen (str "data/missing.txt")]).
Proof.
  apply (ingest_doc_unreadable (mock_world hf_config) hf_config 1
           (str "data/missing.txt") (start text_doc_mock)).
  reflexivity.
Defined.

(** The blank document of the mock. *)
Lemma ingest_doc_blank_witness :
  ingest_doc (mock_world hf_config) hf_config 1 lesson_path
    (start (blank_doc_mock 200))
  = ingest_chunks (mock_world hf_config) hf_config (meta_of lesson_path) []
      (mkState (blank_doc_mock 200)
               [EvPrint (MsgIngesting lesson_path); EvOpen lesson_path]).
Proof.
  apply (ingest_doc_blank (mock_world hf_config) hf_config 0 lesson_path
           (str "  ") (start (blank_doc_mock 200)) (blank_doc_mock 200));
    reflexivity.
Defined.

(** Two chunks and a single vector: one point is sent, two chunks are
    reported. *)
Lemma ingest_chunks_trace_witness :
  fst (ingest_chunks (mock_world hf_config) hf_config [] [str "a"; str "b"]
         (start (mock_with vec01 [])))
  = Ok JNull
  /\ log (snd (ingest_chunks (mock_world hf_config) hf_config []
                 [str "a"; str "b"] (start (mock_with vec01 []))))
     = [EvHttp (hf_request hf_config [str "a"; str "b"]);
        EvUuid4;
        EvHttp (upsert_request hf_config [point [0%N] vec01 [] (str "a")]);
        EvPrint (MsgIngested 2)].
Proof.
  pose proof (ingest_chunks_trace (mock_world hf_config) hf_config []
                [str "a"; str "b"] [vec01] (start (mock_with vec01 []))
                (mkState (mock_with vec01 [])
                   [EvHttp (hf_request hf_config [str "a"; str "b"])])
                (ok_response (JDict []))
                (snd (uuid4 (mock_world hf_config) (mock_with vec01 [])))
                eq_refl eq_refl eq_refl) as [H _].
  rewrite H. split; reflexivity.
Defined.

(** ** The batch run *)

Section MainMore.

Context {W : Type}.
Variable Wd : World W.
Variable cfg : config.

Lemma points_url_not_collection_url :
  str_eqb (points_url cfg) (collection_url cfg) = false.
Proof.
  apply str_eqb_neq. intros H. apply (f_equal (@List.length char)) in H.
  unfold points_url, collection_url in H.
  rewrite !length_app in H. simpl in H. lia.
Qed.

(** No event of the ingestion of a document is a create-collection
    request. *)
Lemma appends_ingest_doc_no_create (fuel : nat) (path : pystr) :
  appends (fun ev => is_create cfg ev = false)
          (ingest_doc Wd cfg fuel path).
Proof.
  unfold ingest_doc.
  apply appends_bind; [now apply appends_print|]. intros _.
  apply appends_bind_pure with (a := meta_of path);
    [intros s; apply doc_meta_of|].
  apply appends_bind; [now apply appends_call|]. intros text.
  destruct (chunk_text fuel text default_max_chars default_overlap);
    [|intros s; exists []; simpl; now rewrite app_nil_r].
  unfold ingest_chunks.
  apply appends_bind; [now apply appends_embed_batch|]. intros vectors.
  apply appends_bind.
  { apply appends_qdrant_upsert; [reflexivity|]. intros points _.
    simpl. apply points_url_not_collection_url. }
  intros _. apply appends_bind; [now apply appends_print|].
  intros _. apply appends_ret.
Qed.

(** The part of the [__main__] block after [ensure_collection]. *)
Lemma appends_documents (P : event -> Prop) (fuel : nat) :
  P (EvGlob glob_pattern) -> P (EvPrint MsgDone) ->
  (forall path, appends P (ingest_doc Wd cfg fuel path)) ->
  appends P
    (paths <- (fun s => let '(ps, w) := glob_glob Wd glob_pattern (world s) in
                        (Ok ps, mkState w (log s ++ [EvGlob glob_pattern]))) ;;
     forM (fun path => ingest_doc Wd cfg fuel path ;; ret tt) paths ;;
     print MsgDone).
Proof.
  intros Hg Hd Hi. apply appends_bind.
  { intros s. exists [EvGlob glob_pattern].
    destruct (glob_glob Wd glob_pattern (world s)) as [ps w]. simpl. auto. }
  intros paths. apply appends_bind; [|intros _; now apply appends_print].
  apply appends_forM. intros path.
  apply appends_bind; [apply Hi|]. intros _. apply appends_ret.
Qed.

Lemma creates_appends {A : Type} (c : M W A) (s : state W) :
  appends (fun ev => is_create cfg ev = false) c ->
  creates cfg (log (snd (c s))) = creates cfg (log s).
Proof.
  intros H. destruct (H s) as (new & E & F).
  rewrite E, creates_app, (creates_none _ _ F). lia.
Qed.

(** X19: a whole run sends at most one create-collection request,
    however many documents there are and however the run ends. *)
Theorem main_one_create (fuel : nat) (s : state W) :
  (creates cfg (log (snd (main Wd cfg fuel s)))
   <= S (creates cfg (log s)))%nat.
Proof.
  unfold main. unfold bind at 1.
  pose proof (creates_appends (@banner W cfg) s
                (appends_banner cfg _ (fun _ => eq_refl))) as Hb.
  destruct (banner cfg s) as [[u|e|] s0]; cbn [snd] in *; try lia.
  unfold bind at 1.
  pose proof (ensure_collection_at_most_one Wd cfg s0) as He.
  destruct (ensure_collection Wd cfg s0) as [[u'|e|] s1]; cbn [snd] in *;
    try lia.
  rewrite creates_appends; [lia|].
  apply appends_documents; try reflexivity.
  apply appends_ingest_doc_no_create.
Qed.

Lemma appends_ensure_collection (P : event -> Prop) :
  P (EvHttp (get_collections_request cfg)) ->
  P (EvHttp (create_collection_request cfg)) ->
  (forall m, P (EvPrint m)) ->
  appends P (ensure_collection Wd cfg).
Proof.
  intros Hg Hc Hp. unfold ensure_collection.
  apply appends_bind; [now apply appends_collection_names|]. intros cols.
  destruct (negb (existsb (eq_str (COLLECTION cfg)) cols));
    [|now apply appends_print].
  unfold qdrant_create_collection, requests.
  apply appends_bind; [now apply appends_call|]. intros r.
  apply appends_bind; [apply appends_raise_for_status|]. intros _.
  now apply appends_print.
Qed.

(** X20: whenever [ensure_collection] fails, for whatever reason, the run
    ends with the same error, and it has listed no file, opened no
    document, asked for no embedding and sent no point. *)
Theorem main_halts_when_ensure_fails (fuel : nat) (s s1 : state W)
    (e : exn) :
  ensure_collection Wd cfg (snd (banner cfg s)) = (Raise e, s1) ->
  main Wd cfg fuel s = (Raise e, s1)
  /\ exists new, log s1 = log s ++ new /\ Forall (no_ingestion cfg) new.
Proof.
  intros He. split.
  - unfold main. pose proof (banner_ok cfg s) as Hb.
    destruct (banner cfg s) as [r0 s0] eqn:Eb. cbn [fst snd] in *.
    subst r0. rewrite (bind_ok _ _ _ _ _ Eb). now apply bind_raise.
  - destruct (appends_banner cfg (no_ingestion cfg) (fun _ => I) s)
      as (n0 & E0 & F0).
    destruct (appends_ensure_collection (no_ingestion cfg)
                (or_introl eq_refl) (or_intror eq_refl) (fun _ => I)
                (snd (banner cfg s)))
      as (n1 & E1 & F1).
    rewrite He in E1. cbn [snd] in E1.
    exists (n0 ++ n1). split.
    + now rewrite E1, E0, app_assoc.
    + now apply Forall_app.
Qed.

Lemma forM_fail_fast {A : Type} (f : A -> M W unit) (l1 l2 : list A)
    (a : A) (e : exn) :
  forall s s1 s2,
    forM f l1 s = (Ok tt, s1) -> f a s1 = (Raise e, s2) ->
    forM f (l1 ++ a :: l2) s = (Raise e, s2).
Proof.
  induction l1 as [|x l1 IH]; intros s s1 s2 H1 Ha.
  - inversion H1; subst s1. simpl. now apply bind_raise.
  - cbn [app forM] in *. apply bind_inv_ok in H1.
    destruct H1 as (u & s' & Hx & H1).
    rewrite (bind_ok _ _ _ _ _ Hx). now apply (IH s' s1 s2).
Qed.

(** X21: the run stops at the first document whose ingestion raises: the
    run ends with that error in the state the failed ingestion left, and
    the documents after it are not touched. *)
Theorem main_fail_fast (fuel : nat) (s s0 s1 s2 : state W)
    (paths1 paths2 : list pystr) (path : pystr) (w1 : W) (e : exn) :
  (banner cfg ;; ensure_collection Wd cfg) s = (Ok tt, s0) ->
  glob_glob Wd glob_pattern (world s0) = (paths1 ++ path :: paths2, w1) ->
  forM (fun p => ingest_doc Wd cfg fuel p ;; ret tt) paths1
       (mkState w1 (log s0 ++ [EvGlob glob_pattern]))
  = (Ok tt, s1) ->
  ingest_doc Wd cfg fuel path s1 = (Raise e, s2) ->
  main Wd cfg fuel s = (Raise e, s2).
Proof.
  intros H0 Hg H1 Hp. unfold main.
  apply bind_inv_ok in H0. destruct H0 as (u & sb & Hb & He).
  rewrite (bind_ok _ _ _ _ _ Hb), (bind_ok _ _ _ _ _ He).
  unfold bind at 1. rewrite Hg.
  apply bind_raise.
  apply (forM_fail_fast _ paths1 paths2 path e _ s1 s2 H1).
  now apply bind_raise.
Qed.

End MainMore.

(** The index service is down. *)
Lemma main_halts_when_ensure_fails_witness :
  main down_world hf_config 1 (start tt)
  = (Raise (HTTPError 503),
     mkState tt [EvPrint MsgStarting;
                 EvPrint (MsgUsingHF (HF_EMBED_MODEL hf_config));
                 EvHttp (get_collections_request hf_config)]).
Proof.
  apply (main_halts_when_ensure_fails down_world hf_config 1 (start tt)).
  reflexivity.
Defined.

(** Two blank documents and an embedding endpoint that answers 500: the
    second document is never opened. *)
Lemma main_fail_fast_witness :
  main (mock_world hf_config) hf_config 1 (start two_docs_mock)
  = (Raise (HTTPError 500),
     mkState two_docs_mock
       [EvPrint MsgStarting;
        EvPrint (MsgUsingHF (HF_EMBED_MODEL hf_config));
        EvHttp (get_collections_request hf_config);
        EvPrint (MsgExists (COLLECTION hf_config));
        EvGlob glob_pattern;
        EvPrint (MsgIngesting (str "data/a.txt"));
        EvOpen (str "data/a.txt");
        EvHttp (hf_request hf_config [])]).
Proof.
  apply (main_fail_fast (mock_world hf_config) hf_config 1
           (start two_docs_mock)
           (mkState two_docs_mock
              [EvPrint MsgStarting;
               EvPrint (MsgUsingHF (HF_EMBED_MODEL hf_config));
               EvHttp (get_collections_request hf_config);
               EvPrint (MsgExists (COLLECTION hf_config))])
           (mkState two_docs_mock
              [EvPrint MsgStarting;
               EvPrint (MsgUsingHF (HF_EMBED_MODEL hf_config));
               EvHttp (get_collections_request hf_config);
               EvPrint (MsgExists (COLLECTION hf_config));
               EvGlob glob_pattern])
           _ [] [str "data/b.txt"] (str "data/a.txt") two_docs_mock);
    reflexivity.
Defined.

(** ** The metadata and the path *)

Lemma last_index_none_iff (c : char) (s : pystr) :
  last_index c s = None <-> ~ In c s.
Proof.
  induction s as [|x r IH]; simpl; [tauto|].
  destruct (last_index c r) as [k|].
  - split; [discriminate|]. intros H. exfalso. apply H. right.
    destruct (in_dec N.eq_dec c r) as [Hin|Hn]; [exact Hin|].
    apply IH in Hn. discriminate.
  - destruct (N.eqb_spec x c) as [->|Hne].
    + split; [discriminate|]. intros H. exfalso. apply H. now left.
    + split; [|reflexivity]. intros _ [H|H]; [congruence|].
      now apply (proj1 IH).
Qed.

Lemma split_no_sep (c : char) (s : pystr) :
  Forall (fun seg => ~ In c seg) (split c s).
Proof.
  induction s as [|x r IH]; simpl; [repeat constructor; tauto|].
  destruct (N.eqb_spec x c) as [->|Hne].
  - constructor; [tauto|exact IH].
  - destruct (split c r) as [|h t]; [repeat constructor; simpl; intuition|].
    inversion IH; subst. constructor; [|assumption].
    simpl. intuition.
Qed.

Lemma split_length (c : char) (s : pystr) :
  List.length (split c s)
  = S (List.length (filter (fun x => N.eqb x c) s)).
Proof.
  induction s as [|x r IH]; simpl; [reflexivity|].
  destruct (N.eqb x c); simpl; [now rewrite IH|].
  destruct (split c r) as [|h t]; simpl in *; lia.
Qed.

Lemma from_last_in {A : Type} (k : nat) (l : list A) (v : A) :
  from_last k l = Some v -> In v l.
Proof.
  unfold from_last. intros H. apply nth_error_In in H.
  now apply in_rev.
Qed.

Lemma stem_prefix (name : pystr) : exists ext, name = stem name ++ ext.
Proof.
  unfold stem. destruct (last_index extsep name) as [k|].
  - destruct (existsb (fun c => negb (N.eqb c extsep)) (firstn k name)).
    + exists (skipn k name). now rewrite firstn_skipn.
    + exists []. now rewrite app_nil_r.
  - exists []. now rewrite app_nil_r.
Qed.

(** X22: no value of the metadata holds a path separator, and [doc_id]
    is the beginning of the file name. *)
Theorem meta_of_no_separator (path : pystr) :
  (forall k v, In (k, JStr v) (meta_of path) -> ~ In sep v)
  /\ exists ext,
       file_name path = stem (file_name path) ++ ext
       /\ dict_get (str "doc_id") (meta_of path)
          = Some (JStr (stem (file_name path))).
Proof.
  split.
  - pose proof (split_no_sep sep path) as Hs.
    rewrite Forall_forall in Hs.
    intros k v [H|[H|[H|[]]]]; inversion H; subst; clear H.
    + pose proof (file_name_no_sep path) as Hf.
      apply last_index_none_iff in Hf.
      destruct (stem_prefix (file_name path)) as (ext & E).
      intros Hin. apply Hf. rewrite E. apply in_or_app. now left.
    + destruct (from_last 2 (segments path)) as [c|] eqn:E.
      * apply Hs. now apply (from_last_in 2).
      * vm_compute. intuition discriminate.
    + destruct (from_last 1 (segments path)) as [c|] eqn:E.
      * apply Hs. now apply (from_last_in 1).
      * vm_compute. intuition discriminate.
  - destruct (stem_prefix (file_name path)) as (ext & E).
    exists ext. split; [exact E|reflexivity].
Qed.

(** X23: a path has one segment more than it has separators; so a path
    with no separator gets both defaults and itself as file name, and a
    path with one separator gets the default [course_id] and what comes
    before the separator as [module_id]. *)
Theorem meta_of_shallow_paths (path : pystr) :
  List.length (segments path) = S (separators path)
  /\ (separators path = 0%nat ->
      meta_of path = [(str "doc_id", JStr (stem path));
                      (str "course_id", JStr (str "general"));
                      (str "module_id", JStr (str "intro"))])
  /\ (separators path = 1%nat ->
      exists dir file,
        path = dir ++ sep :: file
        /\ meta_of path = [(str "doc_id", JStr (stem file));
                           (str "course_id", JStr (str "general"));
                           (str "module_id", JStr dir)]).
Proof.
  assert (Hl : List.length (segments path) = S (separators path))
    by apply split_length.
  split; [exact Hl|]. split.
  - intros H0. rewrite H0 in Hl.
    assert (Hn : last_index sep path = None).
    { apply last_index_none_iff. intros Hin.
      unfold separators in H0.
      assert (Hf : In sep (filter (fun c => N.eqb c sep) path))
        by (apply filter_In; split; [exact Hin|apply N.eqb_refl]).
      destruct (filter (fun c => N.eqb c sep) path); [exact Hf|discriminate]. }
    unfold meta_of, file_name, segments. rewrite (split_one sep path Hn).
    reflexivity.
  - intros H1. rewrite H1 in Hl.
    destruct (segments path) as [|dir [|file [|x t]]] eqn:Es;
      try discriminate.
    exists dir, file. split.
    + clear Hl H1. unfold segments in Es. revert dir file Es.
      induction path as [|c r IH]; intros dir file Es; [discriminate|].
      simpl in Es. destruct (N.eqb_spec c sep) as [->|Hne].
      * inversion Es; subst. simpl. f_equal.
        pose proof (split_length sep r) as Hr. rewrite H1 in Hr.
        assert (Hn : last_index sep r = None).
        { destruct (last_index sep r) as [k|] eqn:E; [|reflexivity].
          destruct (split_two sep r k E) as (h & h' & t & Ht).
          rewrite Ht in H1. discriminate. }
        rewrite (split_one sep r Hn) in H1. now inversion H1.
      * destruct (split sep r) as [|h t] eqn:Er; [discriminate|].
        inversion Es; subst. simpl. f_equal. now apply IH.
    + unfold meta_of, file_name. rewrite Es. reflexivity.
Qed.

(** The path ["notes.txt"]. *)
Lemma meta_of_shallow_paths_witness :
  meta_of (str "notes.txt")
  = [(str "doc_id", JStr (stem (str "notes.txt")));
     (str "course_id", JStr (str "general"));
     (str "module_id", JStr (str "intro"))].
Proof.
  apply (proj1 (proj2 (meta_of_shallow_paths (str "notes.txt")))).
  reflexivity.
Defined.

(** ** The windows before the end of the text *)

Section Windows.

Variable text : pystr.
Variables max_chars overlap : Z.

Lemma loop_after_succ (n : nat) :
  forall s,
    loop_after (S n) text max_chars overlap s
    = loop_body text max_chars overlap
        (loop_after n text max_chars overlap s).
Proof.
  induction n as [|n IH]; intros s; [reflexivity|].
  change (loop_after (S (S n)) text max_chars overlap s)
    with (loop_after (S n) text max_chars overlap
            (loop_body text max_chars overlap s)).
  now rewrite IH.
Qed.

(** As long as the windows stay within the text, the loop cuts them at
    regular steps. *)
Lemma loop_after_regular (k : nat) :
  0 <= overlap < max_chars ->
  Z.of_nat k * (max_chars - overlap) + max_chars <= len text ->
  loop_after (S k) text max_chars overlap (mkLoop 0 [])
  = mkLoop (Z.of_nat (S k) * (max_chars - overlap))
           (map (window text max_chars overlap) (seq 0 (S k))).
Proof.
  intros Hp. induction k as [|k IH]; intros Hk.
  - change (Z.of_nat 0) with 0 in Hk.
    cbn [loop_after seq map]. unfold loop_body, window.
    cbn [loop_i loop_chunks app]. change (Z.of_nat 0) with 0.
    change (Z.of_nat 1) with 1.
    replace (Z.min (0 + max_chars) (len text)) with max_chars by lia.
    destruct (Z.ltb_spec (max_chars - overlap) 0); [lia|].
    f_equal. lia.
  - rewrite loop_after_succ, IH by nia.
    unfold loop_body. cbn [loop_i loop_chunks].
    replace (Z.min (Z.of_nat (S k) * (max_chars - overlap) + max_chars)
                   (len text))
      with (Z.of_nat (S k) * (max_chars - overlap) + max_chars) by lia.
    destruct (Z.ltb_spec
                (Z.of_nat (S k) * (max_chars - overlap) + max_chars
                 - overlap) 0); [nia|].
    f_equal; [nia|].
    rewrite (seq_S (S k) 0), map_app. reflexivity.
Qed.

End Windows.

(** X24: for [0 <= overlap < max_chars], as long as a window ends within
    the normalized text the loop behaves regularly: after [k + 1]
    iterations it has cut the windows that start at 0,
    [max_chars - overlap], ..., [k * (max_chars - overlap)], each of
    exactly [max_chars] characters, and the next start is
    [(k + 1) * (max_chars - overlap)]. *)
Theorem chunk_windows_regular (text : pystr) (max_chars overlap : Z)
    (k : nat) :
  0 <= overlap < max_chars ->
  Z.of_nat k * (max_chars - overlap) + max_chars <= len (normalize text) ->
  let s := loop_after (S k) (normalize text) max_chars overlap
                      (mkLoop 0 []) in
  loop_i s = Z.of_nat (S k) * (max_chars - overlap)
  /\ loop_chunks s
     = map (window (normalize text) max_chars overlap) (seq 0 (S k))
  /\ Forall (fun c => len c = max_chars) (loop_chunks s)
  /\ loop_starts (S k) (normalize text) max_chars overlap (mkLoop 0 [])
     = map (fun j => Z.of_nat j * (max_chars - overlap)) (seq 0 (S k)).
Proof.
  intros Hp Hk s. unfold s.
  rewrite (loop_after_regular _ _ _ k Hp Hk). cbn [loop_i loop_chunks].
  split; [reflexivity|]. split; [reflexivity|]. split.
  - apply Forall_forall. intros c Hc. apply in_map_iff in Hc.
    destruct Hc as (j & <- & Hj). apply in_seq in Hj.
    unfold window. rewrite slice_len; [lia| |]; nia.
  - clear s. revert Hk. induction k as [|k IH]; intros Hk; [reflexivity|].
    assert (Hs : forall n s0,
               loop_starts (S n) (normalize text) max_chars overlap s0
               = loop_starts n (normalize text) max_chars overlap s0
                 ++ [loop_i (loop_after n (normalize text) max_chars
                                        overlap s0)]).
    { induction n as [|n IHn]; intros s0; [reflexivity|].
      change (loop_starts (S (S n)) (normalize text) max_chars overlap s0)
        with (loop_i s0
              :: loop_starts (S n) (normalize text) max_chars overlap
                   (loop_body (normalize text) max_chars overlap s0)).
      rewrite IHn. reflexivity. }
    rewrite Hs, IH by nia.
    rewrite (loop_after_regular _ _ _ k Hp) by nia. cbn [loop_i].
    rewrite (seq_S (S k) 0), map_app. reflexivity.
Qed.

(** The thousand characters cut in windows of 100 that overlap by 20:
    the first ten windows. *)
Lemma chunk_windows_regular_witness :
  loop_i (loop_after 10 (normalize thousand_a) 100 20 (mkLoop 0 [])) = 800.
Proof.
  refine (proj1 (chunk_windows_regular thousand_a 100 20 9 _ _)).
  - lia.
  - vm_compute. discriminate.
Defined.
